(** * Link-Shortener-Bun: a shallow embedding of [index.ts]

    (The second source file is an earlier [index.ts]: the same [/shorten],
    [/:code] and [/stats/:code], and an [/admin/links] without tokens.)

    The service is a Hono application over one SQLite table [links] and an
    in-memory [Set<string>] of admin tokens.  Every handler is embedded as a
    function from the request and the server state to a response and the next
    server state.  What the platform supplies from outside the program is an
    explicit input:
    - [Math.random]: the values [Math.floor(Math.random() * chars.length)]
      drawn while a request is served, as a function [rand : nat -> nat]
      (the k-th draw of that request);
    - [CURRENT_TIMESTAMP]: the text [now] stored in [created_at];
    - [new URL(s)]: whether the WHATWG parser accepts [s];
    - [process.env] and the file [admin.html].

    Strings are the UTF-8 bytes of the text.  A JavaScript number that holds
    an integer is embedded as that integer in [Z], rounded as a double is
    ([JS.to_double]); [NaN] is [None].  A numeric value of SQLite is embedded
    as its value in [Z]: an INTEGER lies between [-2^63] and [2^63 - 1], and
    a value of [2^63] or more is a REAL.  The fields of a JSON body are
    strings, as the TypeScript interfaces of the program declare them. *)

From Stdlib Require Import ZArith QArith Qround Ascii String List Lia.
From stdpp Require Import base strings gmap list sorting.

Local Open Scope Z_scope.

(** ** JavaScript strings *)

Module JS.

(** [s.charAt(i)]: the one-character string at index [i], the empty string
    when [i] is out of range. *)
Definition charAt (s : string) (i : nat) : string :=
  match String.get i s with
  | Some c => String c ""
  | None => ""
  end.

(** [s.startsWith(p)]. *)
Definition startsWith (s p : string) : bool := String.prefix p s.

(** [s.substring(n)]: [s] without its first [n] characters. *)
Fixpoint substring (s : string) (n : nat) {struct n} : string :=
  match n, s with
  | O, _ => s
  | S _, EmptyString => ""
  | S n', String _ s' => substring s' n'
  end.

(** A value used as a condition: [undefined] and [''] are falsy.  [truthy]
    returns the string when the condition holds. *)
Definition truthy (v : option string) : option string :=
  match v with
  | Some (String c s) => Some (String c s)
  | _ => None
  end.

(** [v || d] on strings. *)
Definition or_else (v : option string) (d : string) : string :=
  match truthy v with
  | Some s => s
  | None => d
  end.

Definition is_digit (c : ascii) : bool :=
  (48 <=? N_of_ascii c)%N && (N_of_ascii c <=? 57)%N.

Definition digit_value (c : ascii) : Z := Z.of_N (N_of_ascii c) - 48.

(** The WhiteSpace and LineTerminator characters skipped by [parseInt], by
    their UTF-8 bytes.  One byte: TAB, LF, VT, FF, CR and SPACE. *)
Definition is_space (c : ascii) : bool :=
  let n := N_of_ascii c in
  ((9 <=? n)%N && (n <=? 13)%N) || (n =? 32)%N.

(** Two bytes: U+00A0. *)
Definition is_space2 (a b : ascii) : bool :=
  ((N_of_ascii a =? 194) && (N_of_ascii b =? 160))%N.

(** Three bytes: U+1680, U+2000 to U+200A, U+2028, U+2029, U+202F, U+205F,
    U+3000 and U+FEFF. *)
Definition is_space3 (a b c : ascii) : bool :=
  let x := N_of_ascii a in
  let y := N_of_ascii b in
  let z := N_of_ascii c in
  ((x =? 225) && (y =? 154) && (z =? 128) ||
   (x =? 226) && (y =? 128) &&
     ((128 <=? z) && (z <=? 138) || (z =? 168) || (z =? 169) || (z =? 175)) ||
   (x =? 226) && (y =? 129) && (z =? 159) ||
   (x =? 227) && (y =? 128) && (z =? 128) ||
   (x =? 239) && (y =? 187) && (z =? 191))%N.

Fixpoint trimStart (s : string) : string :=
  match s with
  | String a s1 =>
      if is_space a then trimStart s1
      else
        match s1 with
        | String b s2 =>
            if is_space2 a b then trimStart s2
            else
              match s2 with
              | String c s3 => if is_space3 a b c then trimStart s3 else s
              | EmptyString => s
              end
        | EmptyString => s
        end
  | EmptyString => ""
  end.

(** An integer as a double holds it: up to 53 significant bits it is kept,
    beyond them it is rounded to the nearest double, a tie to the even one.
    (A value beyond the largest double stands for [Infinity]: the program
    only compares it with bounds it exceeds.) *)
Definition to_double (z : Z) : Z :=
  let m := Z.abs z in
  if m <? 2 ^ 53 then z
  else
    let e := Z.log2 m - 52 in
    let q := m / 2 ^ e in
    let r := m mod 2 ^ e in
    let half := 2 ^ (e - 1) in
    let q' :=
      if r <? half then q
      else if half <? r then q + 1
      else if Z.even q then q else q + 1 in
    Z.sgn z * (q' * 2 ^ e).

(** The digits of the longest decimal prefix, accumulated left to right;
    [None] while no digit has been read. *)
Fixpoint parse_digits (s : string) (acc : option Z) : option Z :=
  match s with
  | String c s' =>
      if is_digit c
      then parse_digits s' (Some (default 0 acc * 10 + digit_value c))
      else acc
  | EmptyString => acc
  end.

(** [parseInt(s, 10)]: leading white space is skipped, one sign is read,
    then the longest run of decimal digits; the number is the double of the
    integer they denote, and [None] is [NaN]. *)
Definition parseInt (s : string) : option Z :=
  match trimStart s with
  | String "-" r => (λ n, - to_double n) <$> parse_digits r None
  | String "+" r => to_double <$> parse_digits r None
  | r => to_double <$> parse_digits r None
  end.

(** The characters [encodeURI] leaves as they are: letters, digits and
    [; / ? : @ & = + $ , # - _ . ! ~ * ' ( )]. *)
Definition uri_unescaped (c : ascii) : bool :=
  let n := N_of_ascii c in
  ((97 <=? n) && (n <=? 122) || (65 <=? n) && (n <=? 90) ||
   (48 <=? n) && (n <=? 57))%N ||
  existsb (Ascii.eqb c) (String.list_ascii_of_string ";/?:@&=+$,#-_.!~*'()").

Definition hex_digit (n : N) : string :=
  match String.get (N.to_nat n) "0123456789ABCDEF" with
  | Some c => String c ""
  | None => ""
  end.

(** [encodeURI(s)]: every other byte of the UTF-8 text becomes [%XX]. *)
Fixpoint encodeURI (s : string) : string :=
  match s with
  | EmptyString => ""
  | String c s' =>
      (if uri_unescaped c then String c ""
       else "%" +:+ hex_digit (N_of_ascii c / 16) +:+ hex_digit (N_of_ascii c mod 16))
      +:+ encodeURI s'
  end.

(** [/[^\x00-\xFF]/.test(s)]: the text has a character above U+00FF, which
    in UTF-8 is a byte of 0xC4 or more. *)
Definition beyond_latin1 (s : string) : bool :=
  existsb (λ c, (196 <=? N_of_ascii c)%N) (String.list_ascii_of_string s).

(** A value given to [Headers.set]: white space (TAB, LF, CR and SPACE) at
    either end is dropped, and a value that holds NUL, LF or CR after that
    is refused with a [TypeError] ([None]). *)
Definition http_space (c : ascii) : bool :=
  let n := N_of_ascii c in
  ((n =? 9) || (n =? 10) || (n =? 13) || (n =? 32))%N.

Definition http_forbidden (c : ascii) : bool :=
  let n := N_of_ascii c in
  ((n =? 0) || (n =? 10) || (n =? 13))%N.

Fixpoint strip_start (s : string) : string :=
  match s with
  | String c s' => if http_space c then strip_start s' else s
  | EmptyString => ""
  end.

Fixpoint strip_end (s : string) : string :=
  match s with
  | String c s' =>
      match strip_end s' with
      | EmptyString => if http_space c then "" else String c ""
      | t => String c t
      end
  | EmptyString => ""
  end.

Definition header_value (v : string) : option string :=
  let v' := strip_end (strip_start v) in
  if existsb http_forbidden (String.list_ascii_of_string v') then None else Some v'.

(** [Math.ceil] on a quotient of two integers. *)
Definition Math_ceil (q : Q) : Z := Qceiling q.

End JS.

(** ** The [links] table

    [CREATE TABLE links (id INTEGER PRIMARY KEY AUTOINCREMENT,
    short_code TEXT UNIQUE NOT NULL, original_url TEXT NOT NULL,
    created_at DATETIME DEFAULT CURRENT_TIMESTAMP, clicks INTEGER DEFAULT 0)].
    A table is the list of its rows in insertion order. *)

Record Row := mkRow {
  rowid : Z;
  short_code : string;
  original_url : string;
  created_at : string;
  clicks : Z
}.

Definition set_clicks (r : Row) (n : Z) : Row :=
  mkRow (rowid r) (short_code r) (original_url r) (created_at r) n.

Module Sql.

(** [WHERE short_code = ?] *)
Definition code_is (code : string) (r : Row) : bool :=
  String.eqb (short_code r) code.

(** [SELECT ... FROM links WHERE short_code = ?] read with [.get]: the
    first matching row, [null] when there is none. *)
Definition select_by_code (links : list Row) (code : string) : option Row :=
  List.find (code_is code) links.

(** The identifier AUTOINCREMENT gives the next row: one more than the
    largest identifier in use. *)
Definition next_rowid (links : list Row) : Z :=
  1 + foldr Z.max 0 (rowid <$> links).

(** [INSERT INTO links (short_code, original_url) VALUES (?, ?)].  The
    UNIQUE constraint makes the statement throw when the code is already in
    the table ([None]); the defaults fill [created_at] and [clicks]. *)
Definition insert (links : list Row) (code url now : string) : option (list Row) :=
  match select_by_code links code with
  | Some _ => None
  | None => Some (links ++ [mkRow (next_rowid links) code url now 0])
  end.

(** [clicks + 1]: the sum of two INTEGERs is an INTEGER while it fits 64
    bits; from [2^63 - 1] the sum is the REAL [2^63], and the REAL sum of a
    value of [2^63] or more and 1 is that value again. *)
Definition add1 (v : Z) : Z :=
  if v <? 2 ^ 63 - 1 then v + 1 else Z.max v (2 ^ 63).

(** [UPDATE links SET clicks = clicks + 1 WHERE short_code = ?] *)
Definition increment_clicks (links : list Row) (code : string) : list Row :=
  (fun r => if code_is code r then set_clicks r (add1 (clicks r)) else r) <$> links.

(** Comparison of two characters by LIKE: ASCII letters match in either
    case. *)
Definition fold_case (c : ascii) : N :=
  let n := N_of_ascii c in
  if ((97 <=? n) && (n <=? 122))%N then (n - 32)%N else n.

Definition like_char (p c : ascii) : bool :=
  (fold_case p =? fold_case c)%N.

(** A byte that continues a character of more than one byte. *)
Definition continuation (c : ascii) : bool :=
  ((128 <=? N_of_ascii c) && (N_of_ascii c <=? 191))%N.

Fixpoint skip_continuation (s : string) : string :=
  match s with
  | String c s' => if continuation c then skip_continuation s' else s
  | EmptyString => ""
  end.

(** [s LIKE p]: [%] stands for any run of characters, [_] for one
    character (its first byte and the bytes that continue it). *)
Fixpoint like (p s : string) : bool :=
  match p with
  | EmptyString => match s with EmptyString => true | _ => false end
  | String "%" p' =>
      (fix any (s : string) : bool :=
         like p' s || match s with String _ s' => any s' | EmptyString => false end) s
  | String "_" p' =>
      match s with
      | String _ s' => like p' (skip_continuation s')
      | EmptyString => false
      end
  | String c p' =>
      match s with String d s' => like_char c d && like p' s' | EmptyString => false end
  end.

(** [WHERE short_code LIKE ? OR original_url LIKE ?] *)
Definition matches (pattern : string) (r : Row) : bool :=
  like pattern (short_code r) || like pattern (original_url r).

(** [ORDER BY created_at DESC]: the later text first. *)
Definition created_desc (a b : Row) : Prop :=
  (created_at b ≤ created_at a)%string.

Global Instance created_desc_dec a b : Decision (created_desc a b).
Proof. unfold created_desc. apply _. Defined.

(** A row is put before the first row that is not later than it. *)
Fixpoint insert_desc (x : Row) (sorted : list Row) : list Row :=
  match sorted with
  | [] => [x]
  | y :: sorted' =>
      if decide (created_desc x y) then x :: sorted
      else y :: insert_desc x sorted'
  end.

(** The sort keeps rows with equal [created_at] in the order of the table,
    as SQLite returns them. *)
Definition order_by_created_desc (rows : list Row) : list Row :=
  foldr insert_desc [] rows.

(** A number bound to [?] in [LIMIT ? OFFSET ?] has to be a 64-bit
    integer. *)
Definition int64 (v : Z) : bool := (- 2 ^ 63 <=? v) && (v <? 2 ^ 63).

(** The first [n] rows, and the rows after the first [n]. *)
Fixpoint first_rows (n : Z) (rows : list Row) : list Row :=
  match rows with
  | [] => []
  | r :: rows' => if n <=? 0 then [] else r :: first_rows (n - 1) rows'
  end.

Fixpoint skip_rows (n : Z) (rows : list Row) : list Row :=
  match rows with
  | [] => []
  | r :: rows' => if n <=? 0 then rows else skip_rows (n - 1) rows'
  end.

(** [LIMIT ? OFFSET ?]: [None] when SQLite throws a datatype mismatch.  A
    negative limit is no limit, a negative offset is 0. *)
Definition limit_offset (limit offset : Z) (rows : list Row) : option (list Row) :=
  if int64 limit && int64 offset
  then Some (let rest := skip_rows offset rows in
             if limit <? 0 then rest else first_rows limit rest)
  else None.

(** [SELECT COUNT( * )] *)
Definition count (rows : list Row) : Z := Z.of_nat (length rows).

(** The state of [SUM] while it reads the rows: the sum so far, whether a
    REAL was read (the sum is a REAL from then on), and whether the INTEGER
    sum left the 64 bits. *)
Record Sum := mkSum { sum_so_far : Z; sum_real : bool; sum_overflow : bool }.

Definition sum_step (a : Sum) (v : Z) : Sum :=
  if sum_real a then mkSum (sum_so_far a + v) true (sum_overflow a)
  else if int64 v then
    if int64 (sum_so_far a + v) then mkSum (sum_so_far a + v) false false
    else mkSum (sum_so_far a + v) true true
  else mkSum (sum_so_far a + v) true false.

(** [SELECT SUM(clicks)]: [None] when SQLite throws an integer overflow;
    otherwise [null] ([Some None]) on an empty table, the INTEGER sum, or
    the REAL sum once a REAL was read. *)
Definition sum_clicks (rows : list Row) : option (option Z) :=
  match rows with
  | [] => Some None
  | _ =>
      let a := fold_left sum_step (clicks <$> rows) (mkSum 0 false false) in
      if sum_overflow a then None else Some (Some (sum_so_far a))
  end.

End Sql.

(** ** Requests and responses *)

(** The [Link] interface as the queries of the handlers fill it:
    [SELECT short_code, original_url, created_at, clicks]. *)
Module Json.
Record Link := mkLink {
  short_code : string;
  original_url : string;
  created_at : string;
  clicks : Z
}.
End Json.

(** A row read into JavaScript: the numeric column becomes a number. *)
Definition select_columns (r : Row) : Json.Link :=
  Json.mkLink (short_code r) (original_url r) (created_at r) (JS.to_double (clicks r)).

(** The bodies of the requests.  A field is [None] when the body has no
    such field; a field that is present is a string, as the interfaces
    [ShortenRequest], [CustomSlugRequest] and [AuthRequest] declare. *)
Record ShortenRequest := { url : option string }.
Record CustomSlugRequest := { cs_url : option string; slug : option string }.
Record AuthRequest := { password : option string }.

Record ShortenResponse := mkShortenResponse {
  sr_short_code : string;
  short_url : string;
  sr_original_url : string
}.

Record Pagination := mkPagination {
  page : Z;
  limit : Z;
  total : Z;
  totalPages : Z
}.

Record Stats := mkStats { totalLinks : Z; totalClicks : Z }.

Inductive Body :=
| Error (error : string)
| Message (message : string)
| Shortened (r : ShortenResponse)
| Token (token : string)
| LinkRecord (l : Json.Link)
| LinkPage (links : list Json.Link) (pagination : Pagination) (stats : Stats)
| LinkList (links : list Json.Link) (pagination : Pagination)
| Html (html : string)
| Redirect (location : string)
| Text (text : string).

Record Response := mkResponse { status : Z; body : Body }.

(** [c.json(v)] answers 200, [c.json(v, code)] answers [code]. *)
Definition json (b : Body) : Response := mkResponse 200 b.
Definition json_error (msg : string) (code : Z) : Response := mkResponse code (Error msg).

(** What Hono answers when a handler throws and does not catch. *)
Definition internal_server_error : Response :=
  mkResponse 500 (Text "Internal Server Error").

(** [c.redirect(location, code)] of Hono: the [Location] header is set to
    the location itself, or to [encodeURI] of it when it has a character
    above U+00FF.  Setting the header throws when the value is refused, and
    no handler catches that. *)
Definition redirect (location : string) (code : Z) : Response :=
  match JS.header_value
          (if JS.beyond_latin1 location then JS.encodeURI location else location) with
  | Some v => mkResponse code (Redirect v)
  | None => internal_server_error
  end.

(** The routes of the application.  A body is [None] when [c.req.json()]
    throws; a header or query parameter is [None] when it is absent. *)
Inductive Request :=
| GetRoot
| PostShorten (body : option ShortenRequest)
| GetAdmin
| PostAdminAuth (body : option AuthRequest)
| PostAdminCreate (authHeader : option string) (body : option CustomSlugRequest)
| GetCode (code : string)
| GetStats (code : string)
| GetAdminLinks (authHeader : option string) (page limit search : option string).

(** The state of the process: the table and [validTokens]. *)
Record Server := mkServer {
  db : list Row;
  validTokens : gset string
}.

Definition set_db (s : Server) (links : list Row) : Server :=
  mkServer links (validTokens s).

Definition add_token (s : Server) (token : string) : Server :=
  mkServer (db s) ({[ token ]} ∪ validTokens s).

(** A request together with what the platform supplies while it is served. *)
Record Event := mkEvent {
  request : Request;
  rand : nat → nat;
  now : string
}.

(** ** The program *)

Definition chars : string :=
  "abcdefghijklmnopqrstuvwxyzABCDEFGHIJKLMNOPQRSTUVWXYZ0123456789".

(** The loop shared by [generateShortCode] and [generateToken]: [n] more
    characters are appended to [result], the next draw being number [k].
    The result comes with the number of the first draw not used. *)
Fixpoint random_chars (rand : nat → nat) (k n : nat) (result : string) : string * nat :=
  match n with
  | O => (result, k)
  | S n' => random_chars rand (S k) n' (result +:+ JS.charAt chars (rand k))
  end.

Definition generateShortCode (length : nat) (rand : nat → nat) (k : nat) : string * nat :=
  random_chars rand k length "".

Definition generateToken (rand : nat → nat) (k : nat) : string * nat :=
  random_chars rand k 32 "".

Definition maxAttempts : nat := 10.

(** The character class of [/^[a-zA-Z0-9_-]+$/], by the ranges of character
    codes it is written with. *)
Definition slug_class (c : ascii) : bool :=
  let n := N_of_ascii c in
  ((97 <=? n) && (n <=? 122) || (65 <=? n) && (n <=? 90) ||
   (48 <=? n) && (n <=? 57) || (n =? 95) || (n =? 45))%N.

(** [/^[a-zA-Z0-9_-]+$/.test(s)] *)
Definition slug_regex_test (s : string) : bool :=
  match String.list_ascii_of_string s with
  | [] => false
  | cs => forallb slug_class cs
  end.

Definition isValidSlug (slug : string) : bool :=
  slug_regex_test slug && (1 <=? String.length slug)%nat && (String.length slug <=? 50)%nat.

Definition validateToken (validTokens : gset string) (authHeader : option string) : bool :=
  match JS.truthy authHeader with
  | None => false
  | Some h =>
      if negb (JS.startsWith h "Bearer ") then false
      else
        let token := JS.substring h 7 in
        bool_decide (token ∈ validTokens)
  end.

(** A row read with [.get] used as a condition: [null] is falsy. *)
Definition found {A} (o : option A) : bool :=
  match o with
  | Some _ => true
  | None => false
  end.

(** The [do ... while] of [/shorten], with [fuel] bounding the number of
    rounds: a candidate is drawn and counted, and the loop goes on while the
    candidate is in the table and fewer than [maxAttempts] were drawn.  It
    yields the last candidate and the count, [None] when the fuel runs out. *)
Fixpoint unique_code_loop (fuel : nat) (rand : nat → nat) (links : list Row)
    (k attempts : nat) : option (string * nat) :=
  match fuel with
  | O => None
  | S fuel' =>
      let '(shortCode, k') := generateShortCode 6 rand k in
      let attempts := S attempts in
      if found (Sql.select_by_code links shortCode) && (attempts <? maxAttempts)%nat
      then unique_code_loop fuel' rand links k' attempts
      else Some (shortCode, attempts)
  end.

Section Handlers.

(** Whether [new URL(s)] returns (rather than throws). *)
Variable URL_parses : string → bool.
(** [process.env.ADMIN_PASSWORD] and [process.env.BASE_URL]. *)
Variable env_ADMIN_PASSWORD env_BASE_URL : option string.
(** The text of [./admin.html]. *)
Variable admin_html : string.

Definition isValidUrl (s : string) : bool := URL_parses s.

Definition ADMIN_PASSWORD : string := JS.or_else env_ADMIN_PASSWORD "doppy".

Definition baseUrl : string := JS.or_else env_BASE_URL "http://localhost:3000".

Definition unique_code (rand : nat → nat) (links : list Row) : string * nat :=
  default ("", maxAttempts) (unique_code_loop maxAttempts rand links 0 0).

(** [app.get('/')] *)
Definition root (s : Server) : Response * Server :=
  (json (Message "Link Shortener API is running!"), s).

(** [app.post('/shorten')] *)
Definition shorten (rand : nat → nat) (now : string)
    (body : option ShortenRequest) (s : Server) : Response * Server :=
  match body with
  | None => (json_error "Invalid JSON or server error" 400, s)
  | Some b =>
      match JS.truthy (url b) with
      | None => (json_error "URL is required" 400, s)
      | Some url =>
          if negb (isValidUrl url) then (json_error "Invalid URL format" 400, s)
          else
            let '(shortCode, attempts) := unique_code rand (db s) in
            if (maxAttempts <=? attempts)%nat
            then (json_error "Failed to generate unique short code" 500, s)
            else
              match Sql.insert (db s) shortCode url now with
              | None => (json_error "Invalid JSON or server error" 400, s)
              | Some links =>
                  (json (Shortened
                     (mkShortenResponse shortCode (baseUrl +:+ "/" +:+ shortCode) url)),
                   set_db s links)
              end
      end
  end.

(** [app.get('/admin')] *)
Definition admin (s : Server) : Response * Server :=
  (mkResponse 200 (Html admin_html), s).

(** [app.post('/admin/auth')] *)
Definition admin_auth (rand : nat → nat)
    (body : option AuthRequest) (s : Server) : Response * Server :=
  match body with
  | None => (json_error "Invalid request" 400, s)
  | Some b =>
      if bool_decide (password b = Some ADMIN_PASSWORD)
      then
        let token := (generateToken rand 0).1 in
        (json (Token token), add_token s token)
      else (json_error "Invalid password" 401, s)
  end.

(** [app.post('/admin/create')] *)
Definition admin_create (now : string) (authHeader : option string)
    (body : option CustomSlugRequest) (s : Server) : Response * Server :=
  if negb (validateToken (validTokens s) authHeader)
  then (json_error "Unauthorized" 401, s)
  else
    match body with
    | None => (json_error "Invalid JSON or server error" 400, s)
    | Some b =>
        match JS.truthy (cs_url b) with
        | None => (json_error "URL is required" 400, s)
        | Some url =>
            if negb (isValidUrl url) then (json_error "Invalid URL format" 400, s)
            else
              match JS.truthy (slug b) with
              | None => (json_error "Slug is required" 400, s)
              | Some slug =>
                  if negb (isValidSlug slug)
                  then (json_error "Invalid slug format. Use only letters, numbers, hyphens, and underscores (1-50 chars)" 400, s)
                  else if found (Sql.select_by_code (db s) slug)
                  then (json_error "This slug is already taken" 409, s)
                  else
                    match Sql.insert (db s) slug url now with
                    | None => (json_error "Invalid JSON or server error" 400, s)
                    | Some links =>
                        (json (Shortened
                           (mkShortenResponse slug (baseUrl +:+ "/" +:+ slug) url)),
                         set_db s links)
                    end
              end
        end
    end.

(** [app.get('/:code')] *)
Definition get_code (code : string) (s : Server) : Response * Server :=
  match code with
  | EmptyString => (json_error "Short code is required" 400, s)
  | _ =>
      match Sql.select_by_code (db s) code with
      | None => (json_error "Short link not found" 404, s)
      | Some link =>
          (redirect (original_url link) 302,
           set_db s (Sql.increment_clicks (db s) code))
      end
  end.

(** [app.get('/stats/:code')] *)
Definition get_stats (code : string) (s : Server) : Response * Server :=
  match code with
  | EmptyString => (json_error "Short code is required" 400, s)
  | _ =>
      match Sql.select_by_code (db s) code with
      | None => (json_error "Short link not found" 404, s)
      | Some link => (json (LinkRecord (select_columns link)), s)
      end
  end.

(** [app.get('/admin/links')].  The handler has no [try]: when a query
    throws, Hono answers 500. *)
Definition admin_links (authHeader : option string)
    (pageParam limitParam searchParam : option string) (s : Server) : Response * Server :=
  if negb (validateToken (validTokens s) authHeader)
  then (json_error "Unauthorized" 401, s)
  else
    let page := JS.parseInt (JS.or_else pageParam "1") in
    let limit := JS.parseInt (JS.or_else limitParam "50") in
    let search := JS.or_else searchParam "" in
    match page, limit with
    | Some page, Some limit =>
        if (page <? 1) || (limit <? 1)
        then (json_error "Invalid pagination parameters" 400, s)
        else
          let offset := JS.to_double (JS.to_double (page - 1) * limit) in
          let rows :=
            match search with
            | EmptyString => db s
            | _ => filter (λ r, Sql.matches ("%" +:+ search +:+ "%") r = true) (db s)
            end in
          let total := Sql.count rows in
          match Sql.limit_offset limit offset (Sql.order_by_created_desc rows),
                Sql.sum_clicks (db s) with
          | Some links, Some totalClicks =>
              (json (LinkPage (select_columns <$> links)
                       (mkPagination page limit total
                          (JS.Math_ceil (inject_Z total / inject_Z limit)))
                       (mkStats total (JS.to_double (default 0 totalClicks)))),
               s)
          | _, _ => (internal_server_error, s)
          end
    | _, _ => (json_error "Invalid pagination parameters" 400, s)
    end.

(** [app.get('/admin/links')] as the second source file has it: no token
    is asked for, the default limit is 20, and there is neither a search
    filter nor the statistics. *)
Definition admin_links_open (pageParam limitParam : option string)
    (s : Server) : Response * Server :=
  let page := JS.parseInt (JS.or_else pageParam "1") in
  let limit := JS.parseInt (JS.or_else limitParam "20") in
  match page, limit with
  | Some page, Some limit =>
      if (page <? 1) || (limit <? 1)
      then (json_error "Invalid pagination parameters" 400, s)
      else
        let offset := JS.to_double (JS.to_double (page - 1) * limit) in
        let total := Sql.count (db s) in
        match Sql.limit_offset limit offset (Sql.order_by_created_desc (db s)) with
        | Some links =>
            (json (LinkList (select_columns <$> links)
                     (mkPagination page limit total
                        (JS.Math_ceil (inject_Z total / inject_Z limit)))),
             s)
        | None => (internal_server_error, s)
        end
  | _, _ => (json_error "Invalid pagination parameters" 400, s)
  end.

(** The application: one request is served against the state. *)
Definition handle (e : Event) (s : Server) : Response * Server :=
  match request e with
  | GetRoot => root s
  | PostShorten body => shorten (rand e) (now e) body s
  | GetAdmin => admin s
  | PostAdminAuth body => admin_auth (rand e) body s
  | PostAdminCreate authHeader body => admin_create (now e) authHeader body s
  | GetCode code => get_code code s
  | GetStats code => get_stats code s
  | GetAdminLinks authHeader page limit search =>
      admin_links authHeader page limit search s
  end.

(** The requests of a process lifetime, served one after the other. *)
Fixpoint run (es : list Event) (s : Server) : list Response * Server :=
  match es with
  | [] => ([], s)
  | e :: es' =>
      let '(r, s') := handle e s in
      let '(rs, s'') := run es' s' in
      (r :: rs, s'')
  end.

(** The state a process starts in: the table as the database file has it,
    and no token. *)
Definition start (links : list Row) : Server := mkServer links ∅.

End Handlers.

(** ** Vocabulary of the properties *)

(** The [j]-th candidate code of a [/shorten] request (counting from 0):
    each call of [generateShortCode] takes six draws. *)
Definition candidate (rand : nat → nat) (j : nat) : string :=
  (generateShortCode 6 rand (6 * j)).1.

Definition stored (links : list Row) (code : string) : Prop :=
  code ∈ short_code <$> links.

(** A row as it may look later: every column as it was, except that
    [clicks] may have grown. *)
Definition row_le (r r' : Row) : Prop :=
  rowid r' = rowid r ∧ short_code r' = short_code r ∧
  original_url r' = original_url r ∧ created_at r' = created_at r ∧
  clicks r ≤ clicks r'.

(** A table as it may look later: the rows it had, in place, and new rows
    after them. *)
Definition table_le (links links' : list Row) : Prop :=
  ∃ kept new, links' = kept ++ new ∧ Forall2 row_le links kept.

(** The header is [Bearer ] followed by a token of [T]. *)
Definition carries (T : gset string) (authHeader : option string) : Prop :=
  ∃ token, authHeader = Some ("Bearer " +:+ token) ∧ token ∈ T.

(** The tokens returned by the successful logins of a run. *)
Definition issued_by (e : Event) (r : Response) : gset string :=
  match request e, r with
  | PostAdminAuth _, mkResponse 200 (Token token) => {[ token ]}
  | _, _ => ∅
  end.

Fixpoint issued (es : list Event) (rs : list Response) : gset string :=
  match es, rs with
  | e :: es', r :: rs' => issued_by e r ∪ issued es' rs'
  | _, _ => ∅
  end.

(** A string made of characters of [chars] only, as the tokens and the
    generated codes are. *)
Definition over_chars (t : string) : Prop :=
  Forall (λ c, c ∈ String.list_ascii_of_string chars) (String.list_ascii_of_string t).

(** The slug predicate in the words of the specification: letters, digits,
    hyphens and underscores, between 1 and 50 of them. *)
Definition ascii_letters : list ascii :=
  String.list_ascii_of_string "abcdefghijklmnopqrstuvwxyzABCDEFGHIJKLMNOPQRSTUVWXYZ".

Definition ascii_digits : list ascii :=
  String.list_ascii_of_string "0123456789".

Definition slug_character (c : ascii) : Prop :=
  c ∈ ascii_letters ∨ c ∈ ascii_digits ∨ c = "-"%char ∨ c = "_"%char.

Global Instance slug_character_dec (c : ascii) : Decision (slug_character c).
Proof. unfold slug_character. apply _. Defined.

Definition slug_spec (s : string) : Prop :=
  s ≠ "" ∧ (String.length s ≤ 50)%nat ∧
  Forall slug_character (String.list_ascii_of_string s).

(** The number a string of decimal digits denotes, by the weight of each
    position. *)
Fixpoint decimal_value (ds : string) : Z :=
  match ds with
  | EmptyString => 0
  | String c ds' => JS.digit_value c * 10 ^ Z.of_nat (String.length ds') + decimal_value ds'
  end.

Definition all_digits (ds : string) : Prop :=
  Forall (λ c, JS.is_digit c = true) (String.list_ascii_of_string ds).

Definition starts_with_digit (s : string) : bool :=
  match s with
  | String c _ => JS.is_digit c
  | EmptyString => false
  end.

(** What the guard of [/admin/links] rejects: [NaN], or a number below 1. *)
Definition rejected (n : option Z) : Prop :=
  match n with
  | None => True
  | Some n => n < 1
  end.

(** The rows [/admin/links] counts and pages through. *)
Definition searched (searchParam : option string) (links : list Row) : list Row :=
  match JS.truthy searchParam with
  | None => links
  | Some search => filter (λ r, Sql.matches ("%" +:+ search +:+ "%") r = true) links
  end.

(** ** Concrete inputs the properties are run on *)

Module Demo.

(** A stand-in for the URL parser: an http or https prefix. *)
Definition URL_parses (s : string) : bool :=
  String.prefix "http://" s || String.prefix "https://" s.

Definition row (n : Z) (code url now : string) (clicks : Z) : Row :=
  mkRow n code url now clicks.

(** Nine stored codes [aaaaaa] ... [iiiiii]. *)
Definition nine : list Row :=
  [ row 1 "aaaaaa" "https://a.example" "2024-01-01 00:00:01" 0;
    row 2 "bbbbbb" "https://b.example" "2024-01-01 00:00:02" 0;
    row 3 "cccccc" "https://c.example" "2024-01-01 00:00:03" 0;
    row 4 "dddddd" "https://d.example" "2024-01-01 00:00:04" 0;
    row 5 "eeeeee" "https://e.example" "2024-01-01 00:00:05" 0;
    row 6 "ffffff" "https://f.example" "2024-01-01 00:00:06" 0;
    row 7 "gggggg" "https://g.example" "2024-01-01 00:00:07" 0;
    row 8 "hhhhhh" "https://h.example" "2024-01-01 00:00:08" 0;
    row 9 "iiiiii" "https://i.example" "2024-01-01 00:00:09" 0 ].

(** Draws that spell [aaaaaa], [bbbbbb], ...: the [k]-th draw is [k / 6]. *)
Definition rand_rows (k : nat) : nat := (k / 6)%nat.

(** Draws that always pick the first character. *)
Definition rand_zero (k : nat) : nat := 0%nat.

Definition token : string := "aaaaaaaaaaaaaaaaaaaaaaaaaaaaaaaa".

Definition three : list Row :=
  [ row 1 "promo" "https://example.com/a" "2024-01-01 10:00:00" 4;
    row 2 "abc123" "https://example.com/b" "2024-01-02 10:00:00" 0;
    row 3 "my_slug" "https://example.org/c" "2024-01-03 10:00:00" 7 ].

Definition logged_in (links : list Row) : Server := mkServer links {[ token ]}.

Definition login : Event :=
  mkEvent (PostAdminAuth (Some {| password := Some "doppy" |})) rand_zero "2024-01-04 09:00:00".

End Demo.

(** ** Proof automation *)

(** Lemmas on how a table may change. *)
Create HintDb links discriminated.

(** A membership in the empty token set closes the goal. *)
Ltac no_token H := destruct (not_elem_of_empty (C:=gset string) _ H).

(** ** Further vocabulary *)

(** Draws as [Math.floor(Math.random() * chars.length)] gives them: below
    the length of [chars]. *)
Definition in_range (rand : nat → nat) : Prop :=
  ∀ k, (rand k < String.length chars)%nat.

(** The rows of page [p] of [L] rows: all but the first [(p - 1) * L], cut
    after [L]. *)
Definition page_rows (L p : Z) (rows : list Row) : list Row :=
  take (Z.to_nat L) (drop (Z.to_nat ((p - 1) * L)) rows).

(** An integer a double holds exactly: at most [Number.MAX_SAFE_INTEGER]. *)
Definition safe_integer (z : Z) : Prop := 0 ≤ z ≤ 2 ^ 53 - 1.

(** Paging numbers the program computes with exactly: the page, the limit
    and the offset are safe integers. *)
Definition safe_paging (p L : Z) : Prop :=
  1 ≤ p ∧ 1 ≤ L ∧ safe_integer p ∧ safe_integer L ∧ safe_integer ((p - 1) * L).

(** A table whose click counters are INTEGERs that are not negative and
    whose sum is a safe integer. *)
Definition clicks_fit (links : list Row) : Prop :=
  Forall (λ r, 0 ≤ clicks r) links ∧
  safe_integer (foldr Z.add 0 (clicks <$> links)).

(** A text that a header holds as it is: no NUL, LF or CR in it, and
    neither a TAB nor a SPACE at its first or at its last place. *)
Definition header_text (u : string) : Prop :=
  let cs := String.list_ascii_of_string u in
  Forall (λ c, c ≠ "000"%char ∧ c ≠ "010"%char ∧ c ≠ "013"%char) cs ∧
  (∀ c, head cs = Some c → c ≠ "009"%char ∧ c ≠ " "%char) ∧
  (∀ c, last cs = Some c → c ≠ "009"%char ∧ c ≠ " "%char).

(** A given text is a header text. *)
Ltac closed_header_text :=
  split;
  [ repeat constructor; discriminate
  | split; intros ? Hc; vm_compute in Hc; injection Hc as <-; split; discriminate ].



(** The records and the click total of an admin list answer. *)
Definition links_of (r : Response) : list Json.Link :=
  match body r with
  | LinkPage links _ _ => links
  | LinkList links _ => links
  | _ => []
  end.

Definition total_clicks_of (r : Response) : Z :=
  match body r with
  | LinkPage _ _ stats => totalClicks stats
  | _ => 0
  end.





(** The endpoints that only read. *)
Definition reads_only (r : Request) : Prop :=
  match r with
  | GetRoot | GetAdmin | GetStats _ | GetAdminLinks _ _ _ _ => True
  | _ => False
  end.

Module DemoMore.

(** Draws that spell [abcdef]: the [k]-th draw is [k mod 6]. *)
Definition rand_abc (k : nat) : nat := (k mod 6)%nat.

(** A URL with a character above U+00FF (U+0142, the bytes C5 82). *)
Definition wide_url : string :=
  "https://example.com/z" +:+
  String (Ascii.ascii_of_N 197) (String (Ascii.ascii_of_N 130) "") +:+ "oty".

Definition wide : list Row :=
  [ Demo.row 1 "zloty" wide_url "2024-02-01 10:00:00" 0;
    Demo.row 2 "maxed" "https://example.com/m" "2024-02-02 10:00:00" (2 ^ 63 - 1) ].

(** A URL with a line feed in its path, which the URL parser drops and a
    header refuses; a URL with a space before it, which both drop. *)
Definition broken_url : string := "https://example.com/a" +:+ String "010"%char "b".

Definition padded_url : string := " https://example.com/p".

Definition odd : list Row :=
  [ Demo.row 1 "broken" broken_url "2024-02-01 10:00:00" 0;
    Demo.row 2 "padded" padded_url "2024-02-02 10:00:00" 0 ].

(** Counters beyond the safe integers, and counters whose sum leaves 64
    bits. *)
Definition busy : list Row :=
  [ Demo.row 1 "busy" "https://example.com/b" "2024-02-01 10:00:00" (2 ^ 53 + 1) ].

Definition heavy : list Row :=
  [ Demo.row 1 "one" "https://example.com/1" "2024-02-01 10:00:00" (2 ^ 62);
    Demo.row 2 "two" "https://example.com/2" "2024-02-02 10:00:00" (2 ^ 62) ].

(** Three rows created in the same second. *)
Definition tied : list Row :=
  [ Demo.row 1 "first" "https://example.com/1" "2024-02-01 10:00:00" 0;
    Demo.row 2 "second" "https://example.com/2" "2024-02-01 10:00:00" 0;
    Demo.row 3 "third" "https://example.com/3" "2024-02-01 10:00:00" 0 ].

Definition five : list Row :=
  [ Demo.row 1 "one" "https://example.com/1" "2024-02-01 10:00:00" 1;
    Demo.row 2 "two" "https://example.com/2" "2024-02-02 10:00:00" 2;
    Demo.row 3 "three" "https://example.com/3" "2024-02-03 10:00:00" 3;
    Demo.row 4 "four" "https://example.com/4" "2024-02-04 10:00:00" 4;
    Demo.row 5 "five" "https://example.com/5" "2024-02-05 10:00:00" 5 ].

End DemoMore.

(** * Properties *)

(** ** The embedded platform functions on examples *)

Example charAt_in : JS.charAt "abc" 1 = "b".
Proof. reflexivity. Qed.
Example charAt_out : JS.charAt "abc" 3 = "".
Proof. reflexivity. Qed.
Example parseInt_plain : JS.parseInt "42" = Some 42.
Proof. reflexivity. Qed.
Example parseInt_fraction : JS.parseInt "2.9" = Some 2.
Proof. reflexivity. Qed.
Example parseInt_suffix : JS.parseInt "3abc" = Some 3.
Proof. reflexivity. Qed.
Example parseInt_nan : JS.parseInt "abc" = None.
Proof. reflexivity. Qed.
Example parseInt_negative : JS.parseInt " -7x" = Some (-7).
Proof. reflexivity. Qed.
Example ceil_7_2 : JS.Math_ceil (inject_Z 7 / inject_Z 2) = 4.
Proof. reflexivity. Qed.
Example like_substring : Sql.like "%AMP%" "https://example.com" = true.
Proof. reflexivity. Qed.
Example like_miss : Sql.like "%xyz%" "https://example.com" = false.
Proof. reflexivity. Qed.
Example like_one : Sql.like "a_c" "abc" = true.
Proof. reflexivity. Qed.

(** ** Basic facts about the table *)

Lemma select_by_code_None (links : list Row) (code : string) :
  Sql.select_by_code links code = None ↔ ¬ stored links code.
Proof.
  unfold Sql.select_by_code, stored, Sql.code_is.
  induction links as [|r links IH]; simpl.
  - split; [intros _ H; inversion H | done].
  - rewrite elem_of_cons. destruct (String.eqb_spec (short_code r) code) as [->|Hne].
    + split; [done | intros H; exfalso; apply H; by left].
    + rewrite IH. split; [intros H [E|E]; [by symmetry in E | done] | intros H E; apply H; by right].
Qed.

Lemma select_by_code_Some (links : list Row) (code : string) (r : Row) :
  Sql.select_by_code links code = Some r → r ∈ links ∧ short_code r = code.
Proof.
  unfold Sql.select_by_code. intros H.
  apply List.find_some in H as [Hin Hc]. split.
  - by apply list_elem_of_In.
  - unfold Sql.code_is in Hc. by apply String.eqb_eq in Hc.
Qed.

Lemma found_stored (links : list Row) (code : string) :
  found (Sql.select_by_code links code) = true ↔ stored links code.
Proof.
  destruct (Sql.select_by_code links code) eqn:E; simpl.
  - split; [intros _ | done].
    apply select_by_code_Some in E as [Hin <-].
    unfold stored. by apply list_elem_of_fmap_2.
  - apply select_by_code_None in E. split; [done | intros; contradiction].
Qed.

Lemma insert_Some (links links' : list Row) (code url now : string) :
  Sql.insert links code url now = Some links' →
  ¬ stored links code ∧
  links' = links ++ [mkRow (Sql.next_rowid links) code url now 0].
Proof.
  unfold Sql.insert. destruct (Sql.select_by_code links code) eqn:E; [done|].
  intros [= <-]. split; [by apply select_by_code_None | done].
Qed.

Lemma insert_fresh (links : list Row) (code url now : string) :
  ¬ stored links code →
  Sql.insert links code url now = Some (links ++ [mkRow (Sql.next_rowid links) code url now 0]).
Proof.
  intros H. apply select_by_code_None in H. unfold Sql.insert. by rewrite H.
Qed.

(** ** The bounded search for a fresh code *)

Lemma random_chars_next (rand : nat → nat) (n k : nat) (result : string) :
  (random_chars rand k n result).2 = (k + n)%nat.
Proof.
  revert k result. induction n as [|n IH]; intros k result; simpl.
  - lia.
  - rewrite IH. lia.
Qed.

Lemma generateShortCode_candidate (rand : nat → nat) (j : nat) :
  generateShortCode 6 rand (6 * j) = (candidate rand j, (6 * S j)%nat).
Proof.
  unfold candidate. destruct (generateShortCode 6 rand (6 * j)) as [c k] eqn:E.
  simpl. f_equal.
  change k with (c, k).2. rewrite <- E. unfold generateShortCode.
  rewrite random_chars_next. lia.
Qed.

(** The loop started at attempt [a] with enough fuel stops at the first
    candidate [i >= a] that is not stored, or at the last allowed attempt,
    and reports [i + 1] attempts. *)
Lemma unique_code_loop_spec (rand : nat → nat) (links : list Row) (fuel a : nat) :
  (a < maxAttempts)%nat → (maxAttempts - a ≤ fuel)%nat →
  ∃ i, (a ≤ i < maxAttempts)%nat ∧
    unique_code_loop fuel rand links (6 * a) a = Some (candidate rand i, S i) ∧
    (∀ j, (a ≤ j < i)%nat → stored links (candidate rand j)) ∧
    ((S i < maxAttempts)%nat → ¬ stored links (candidate rand i)).
Proof.
  revert a. induction fuel as [|fuel IH]; intros a Ha Hfuel; [lia|].
  cbn [unique_code_loop]. rewrite generateShortCode_candidate.
  destruct (found (Sql.select_by_code links (candidate rand a))) eqn:Hf; simpl.
  - destruct (S a <? maxAttempts)%nat eqn:Hlt.
    + apply Nat.ltb_lt in Hlt.
      destruct (IH (S a)) as (i & Hi & Hrun & Hbefore & Hat); [lia..|].
      exists i. split; [lia|]. split; [exact Hrun|]. split; [|exact Hat].
      intros j Hj. destruct (decide (j = a)) as [->|Hne].
      * by apply found_stored.
      * apply Hbefore. lia.
    + apply Nat.ltb_ge in Hlt. exists a. split; [lia|]. split; [done|].
      split; [intros j Hj; lia | intros; lia].
  - exists a. split; [lia|]. split; [done|].
    split; [intros j Hj; lia|]. intros _ Hst. apply found_stored in Hst. congruence.
Qed.

(** The search always returns: the fuel the handler gives it is enough. *)
Lemma unique_code_spec (rand : nat → nat) (links : list Row) :
  ∃ i, (i < maxAttempts)%nat ∧
    unique_code_loop maxAttempts rand links 0 0 = Some (candidate rand i, S i) ∧
    unique_code rand links = (candidate rand i, S i) ∧
    (∀ j, (j < i)%nat → stored links (candidate rand j)) ∧
    ((S i < maxAttempts)%nat → ¬ stored links (candidate rand i)).
Proof.
  destruct (unique_code_loop_spec rand links maxAttempts 0) as (i & Hi & Hrun & Hb & Hat).
  - unfold maxAttempts. lia.
  - lia.
  - exists i. split; [lia|]. change (6 * 0)%nat with 0%nat in Hrun.
    split; [exact Hrun|]. split; [unfold unique_code; by rewrite Hrun|].
    split; [intros j Hj; apply Hb; lia | exact Hat].
Qed.

(** What [/shorten] does on a valid URL: it answers 500 exactly when the
    first nine candidates are all stored, whatever the tenth is; otherwise it
    stores the first candidate that is not stored and answers 200 with it. *)
Lemma shorten_valid_url URL_parses env_BASE_URL (rand : nat → nat) (now u : string)
    (b : ShortenRequest) (s : Server) :
  JS.truthy (url b) = Some u → URL_parses u = true →
  let r := shorten URL_parses env_BASE_URL rand now (Some b) s in
  (status r.1 = 500 ↔ ∀ j, (j < 9)%nat → stored (db s) (candidate rand j)) ∧
  (status r.1 = 500 → r.2 = s) ∧
  (status r.1 ≠ 500 →
   ∃ i, (i < 9)%nat ∧ ¬ stored (db s) (candidate rand i) ∧
     (∀ j, (j < i)%nat → stored (db s) (candidate rand j)) ∧
     r = (json (Shortened (mkShortenResponse (candidate rand i)
                             (baseUrl env_BASE_URL +:+ "/" +:+ candidate rand i) u)),
          set_db s (db s ++ [mkRow (Sql.next_rowid (db s)) (candidate rand i) u now 0]))).
Proof.
  intros Hu Hvalid. unfold shorten, isValidUrl. rewrite Hu, Hvalid. simpl negb. cbv iota.
  destruct (unique_code_spec rand (db s)) as (i & Hi & _ & -> & Hbefore & Hat).
  unfold maxAttempts in *.
  destruct (10 <=? S i)%nat eqn:Hcap.
  - apply Nat.leb_le in Hcap. assert (i = 9%nat) as -> by lia. simpl.
    split; [|split; [done|intros H; by exfalso]].
    split; [intros _ j Hj; apply Hbefore; lia | done].
  - apply Nat.leb_gt in Hcap.
    assert (Hfresh : ¬ stored (db s) (candidate rand i)) by (apply Hat; lia).
    rewrite (insert_fresh _ _ _ _ Hfresh). simpl.
    split; [|split; [done|]].
    + split; [done|]. intros Hall. exfalso. apply Hfresh, Hall. lia.
    + intros _. exists i. split; [lia|]. split; [done|]. split; [|done].
      intros j Hj. by apply Hbefore.
Qed.

(** C1, at the input where the code departs from it: nine codes are stored,
    the first nine candidates of the request are these nine codes and the
    tenth candidate, [jjjjjj], is not stored.  The handler answers 500 with
    the generation-failure message and stores nothing, although the tenth
    of its ten candidates is unique. *)
Theorem shorten_rejects_unique_tenth_candidate :
  let s := start Demo.nine in
  let body := Some {| url := Some "https://example.com" |} in
  Demo.URL_parses "https://example.com" = true ∧
  Forall (λ j, stored (db s) (candidate Demo.rand_rows j)) (seq 0 9) ∧
  candidate Demo.rand_rows 9 = "jjjjjj" ∧
  ¬ stored (db s) (candidate Demo.rand_rows 9) ∧
  shorten Demo.URL_parses None Demo.rand_rows "2024-01-02 00:00:00" body s
    = (json_error "Failed to generate unique short code" 500, s).
Proof.
  cbv zeta. split; [reflexivity|]. split; [|split; [reflexivity|split]].
  - repeat constructor; apply found_stored; reflexivity.
  - apply select_by_code_None. reflexivity.
  - reflexivity.
Qed.

(** ** Redirects *)

Lemma increment_clicks_codes (links : list Row) (code : string) :
  short_code <$> Sql.increment_clicks links code = short_code <$> links.
Proof.
  unfold Sql.increment_clicks. rewrite <- list_fmap_compose.
  apply list_fmap_ext. intros _ r _. simpl. by destruct (Sql.code_is code r).
Qed.

Lemma add1_integer (v : Z) : v < 2 ^ 63 - 1 → Sql.add1 v = v + 1.
Proof. intros H. unfold Sql.add1. by rewrite (proj2 (Z.ltb_lt _ _) H). Qed.

Lemma add1_bounds (v : Z) : v ≤ Sql.add1 v ≤ v + 1.
Proof. unfold Sql.add1. destruct (v <? 2 ^ 63 - 1) eqn:E; [lia|]. apply Z.ltb_ge in E. lia. Qed.

Lemma select_increment_same (links : list Row) (code : string) :
  Sql.select_by_code (Sql.increment_clicks links code) code =
  (λ r, set_clicks r (Sql.add1 (clicks r))) <$> Sql.select_by_code links code.
Proof.
  unfold Sql.select_by_code, Sql.increment_clicks.
  induction links as [|r links IH]; [done|].
  cbn [fmap list_fmap List.find]. destruct (Sql.code_is code r) eqn:E.
  - unfold Sql.code_is in *. cbn [short_code set_clicks]. by rewrite E.
  - by rewrite E.
Qed.

Lemma select_increment_other (links : list Row) (code code' : string) :
  code' ≠ code →
  Sql.select_by_code (Sql.increment_clicks links code) code' =
  Sql.select_by_code links code'.
Proof.
  intros Hne. unfold Sql.select_by_code, Sql.increment_clicks.
  induction links as [|r links IH]; [done|].
  simpl. destruct (Sql.code_is code r) eqn:E; simpl.
  - unfold Sql.code_is in *. simpl. apply String.eqb_eq in E.
    destruct (String.eqb_spec (short_code r) code'); [congruence | exact IH].
  - destruct (Sql.code_is code' r); [done | exact IH].
Qed.

Lemma get_code_stored (code : string) (l : Row) (s : Server) :
  code ≠ "" → Sql.select_by_code (db s) code = Some l →
  get_code code s =
    (redirect (original_url l) 302, set_db s (Sql.increment_clicks (db s) code)).
Proof.
  intros Hne Hsel. unfold get_code. rewrite Hsel. by destruct code.
Qed.

Lemma set_clicks_twice (r : Row) (a b : Z) : set_clicks (set_clicks r a) b = set_clicks r b.
Proof. done. Qed.

Lemma strip_start_head (s : string) :
  (∀ c, head (String.list_ascii_of_string s) = Some c → JS.http_space c = false) →
  JS.strip_start s = s.
Proof.
  destruct s as [|c s]; [done|]. intros H. cbn [JS.strip_start].
  by rewrite (H c).
Qed.

Lemma strip_end_last (s : string) :
  (∀ c, last (String.list_ascii_of_string s) = Some c → JS.http_space c = false) →
  JS.strip_end s = s.
Proof.
  induction s as [|c s IH]; [done|]. intros H. cbn [JS.strip_end].
  destruct s as [|d s].
  - cbn [JS.strip_end]. by rewrite (H c).
  - rewrite IH; [done|]. intros x Hx. apply H.
    cbn [String.list_ascii_of_string] in *. by rewrite last_cons_cons.
Qed.

(** A header text is the value the header then has. *)
Lemma header_value_text (v : string) : header_text v → JS.header_value v = Some v.
Proof.
  intros (Hall & Hhead & Hlast). unfold JS.header_value.
  assert (Hsp : ∀ c, c ≠ "010"%char → c ≠ "013"%char → c ≠ "009"%char → c ≠ " "%char →
                     JS.http_space c = false).
  { intros c. destruct c as [[] [] [] [] [] [] [] []]; done. }
  assert (Hin : ∀ c, c ∈ String.list_ascii_of_string v → c ≠ "010"%char ∧ c ≠ "013"%char).
  { intros c Hc. rewrite Forall_forall in Hall. destruct (Hall c Hc) as (_ & ? & ?). done. }
  rewrite strip_start_head.
  2: { intros c Hc. destruct (Hhead c Hc). apply head_Some_elem_of in Hc.
       destruct (Hin c Hc). by apply Hsp. }
  rewrite strip_end_last.
  2: { intros c Hc. destruct (Hlast c Hc). apply last_Some_elem_of in Hc.
       destruct (Hin c Hc). by apply Hsp. }
  assert (existsb JS.http_forbidden (String.list_ascii_of_string v) = false) as ->; [|done].
  clear Hhead Hlast Hin. induction Hall as [|c cs (H0 & H10 & H13) Hall IH]; [done|].
  cbn [existsb]. rewrite IH, orb_false_r. clear -H0 H10 H13.
  destruct c as [[] [] [] [] [] [] [] []]; done.
Qed.

Lemma list_ascii_of_string_app (a b : string) :
  String.list_ascii_of_string (a +:+ b) =
  String.list_ascii_of_string a ++ String.list_ascii_of_string b.
Proof.
  induction a as [|c a IH]; [done|].
  change (String c a +:+ b) with (String c (a +:+ b)).
  cbn [String.list_ascii_of_string]. by rewrite IH.
Qed.

(** [encodeURI] writes letters, digits, marks and [%XX] only. *)
Lemma encodeURI_byte (c : ascii) :
  forallb (λ x, negb (JS.http_space x) && negb (JS.http_forbidden x))
    (String.list_ascii_of_string
       (if JS.uri_unescaped c then String c ""
        else "%" +:+ JS.hex_digit (N_of_ascii c / 16) +:+ JS.hex_digit (N_of_ascii c mod 16)))
  = true.
Proof. destruct c as [[] [] [] [] [] [] [] []]; vm_compute; reflexivity. Qed.

Lemma encodeURI_bytes (u : string) :
  Forall (λ c, JS.http_space c = false ∧ JS.http_forbidden c = false)
    (String.list_ascii_of_string (JS.encodeURI u)).
Proof.
  induction u as [|c u IH]; [constructor|].
  cbn [JS.encodeURI]. rewrite list_ascii_of_string_app. apply Forall_app. split; [|exact IH].
  apply Forall_forall. intros x Hx.
  pose proof (encodeURI_byte c) as H. rewrite forallb_forall in H.
  apply list_elem_of_In, H in Hx. apply andb_true_iff in Hx as [H1 H2].
  by rewrite negb_true_iff in H1, H2.
Qed.

Lemma encodeURI_text (u : string) : header_text (JS.encodeURI u).
Proof.
  pose proof (encodeURI_bytes u) as H. rewrite Forall_forall in H.
  assert (Hc : ∀ c, JS.http_space c = false → JS.http_forbidden c = false →
                 (c ≠ "000"%char ∧ c ≠ "010"%char ∧ c ≠ "013"%char) ∧
                 (c ≠ "009"%char ∧ c ≠ " "%char)).
  { intros c Hs Hf. repeat split; intros ->; done. }
  split; [|split].
  - apply Forall_forall. intros c Hin. destruct (H c Hin) as [Hs Hf]. by apply Hc.
  - intros c Hh. apply head_Some_elem_of in Hh. destruct (H c Hh) as [Hs Hf]. by apply Hc.
  - intros c Hl. apply last_Some_elem_of in Hl. destruct (H c Hl) as [Hs Hf]. by apply Hc.
Qed.

(** What a redirect to a header text [u] answers. *)
Lemma redirect_302 (u : string) :
  header_text u →
  redirect u 302 =
  mkResponse 302 (Redirect (if JS.beyond_latin1 u then JS.encodeURI u else u)).
Proof.
  intros Hu. unfold redirect. rewrite header_value_text; [done|].
  destruct (JS.beyond_latin1 u); [apply encodeURI_text | done].
Qed.

(** What fails in C2 as it is stated.  The target of the redirect is not
    always exactly the stored URL: for a stored URL with a character above
    U+00FF (here U+0142) the [Location] header is the percent-encoded text.
    And a counter does not grow for ever: from [2^63 - 1] the first redirect
    leaves the REAL [2^63], which the second does not raise. *)
Lemma redirect_target_is_percent_encoded :
  let s := start DemoMore.wide in
  Sql.select_by_code (db s) "zloty" =
    Some (Demo.row 1 "zloty" DemoMore.wide_url "2024-02-01 10:00:00" 0) ∧
  (get_code "zloty" s).1 = mkResponse 302 (Redirect "https://example.com/z%C5%82oty") ∧
  "https://example.com/z%C5%82oty" ≠ DemoMore.wide_url ∧
  clicks <$> Sql.select_by_code (db s) "maxed" = Some (2 ^ 63 - 1) ∧
  clicks <$> Sql.select_by_code
               (db (get_code "maxed" (get_code "maxed" s).2).2) "maxed" = Some (2 ^ 63) ∧
  2 ^ 63 ≠ 2 ^ 63 - 1 + 2.
Proof. cbv zeta. repeat split; try reflexivity; discriminate. Qed.

(** C2 as amended: a redirect request for a stored code [c] whose URL is a
    header text answers 302, with the stored URL as the [Location] when the
    URL has no character above U+00FF and with its percent-encoded text
    otherwise, and adds exactly 1 to the clicks of [c] while the counter is
    a 64-bit integer; after [N] such requests the counter has grown by [N],
    so it equals [N] for a link that started at 0.  No other code's row is
    touched.  The code is not empty: the route [/:code] binds a path segment
    of at least one character. *)
Theorem redirect_counts_clicks URL_parses env_ADMIN_PASSWORD env_BASE_URL admin_html
    (es : list Event) (s : Server) (c : string) (l : Row) :
  c ≠ "" →
  Sql.select_by_code (db s) c = Some l →
  header_text (original_url l) →
  Forall (λ e, request e = GetCode c) es →
  clicks l + Z.of_nat (length es) < 2 ^ 63 →
  let u := original_url l in
  ∃ s',
    run URL_parses env_ADMIN_PASSWORD env_BASE_URL admin_html es s =
      (replicate (length es)
         (mkResponse 302 (Redirect (if JS.beyond_latin1 u then JS.encodeURI u else u))),
       s') ∧
    Sql.select_by_code (db s') c =
      Some (set_clicks l (clicks l + Z.of_nat (length es))) ∧
    (clicks l = 0 →
     clicks <$> Sql.select_by_code (db s') c = Some (Z.of_nat (length es))) ∧
    (∀ c', c' ≠ c → Sql.select_by_code (db s') c' = Sql.select_by_code (db s) c') ∧
    validTokens s' = validTokens s.
Proof.
  intros Hne Hsel Htext Hes Hfit u. subst u.
  cut (∃ s',
    run URL_parses env_ADMIN_PASSWORD env_BASE_URL admin_html es s =
      (replicate (length es) (redirect (original_url l) 302), s') ∧
    Sql.select_by_code (db s') c =
      Some (set_clicks l (clicks l + Z.of_nat (length es))) ∧
    (∀ c', c' ≠ c → Sql.select_by_code (db s') c' = Sql.select_by_code (db s) c') ∧
    validTokens s' = validTokens s).
  { intros (s' & Hrun & Hc & Hother & Htok). exists s'.
    rewrite Hrun, redirect_302 by done.
    repeat split; try done. intros H0. rewrite Hc. cbn. f_equal. lia. }
  clear Htext. revert s l Hsel Hfit. induction Hes as [|e es He Hes IH]; intros s l Hsel Hfit.
  - exists s. cbn [run length replicate]. repeat split; try done.
    rewrite Hsel. f_equal. destruct l as [i sc ou ca n]; unfold set_clicks; cbn.
    by rewrite Z.add_0_r.
  - cbn [run]. unfold handle at 1. rewrite He.
    rewrite (get_code_stored c l s Hne Hsel).
    set (s1 := set_db s (Sql.increment_clicks (db s) c)).
    cbn [length] in Hfit. rewrite Nat2Z.inj_succ in Hfit.
    assert (Hsel1 : Sql.select_by_code (db s1) c = Some (set_clicks l (clicks l + 1))).
    { unfold s1. cbn [db set_db]. rewrite select_increment_same, Hsel. cbn [fmap option_fmap option_map].
      by rewrite add1_integer by lia. }
    destruct (IH s1 (set_clicks l (clicks l + 1)) Hsel1) as (s' & Hrun & Hc & Hother & Htok).
    { cbn [clicks set_clicks]. lia. }
    exists s'. cbn [original_url set_clicks] in Hrun. rewrite Hrun.
    split; [done|]. split; [|split; [|done]].
    + rewrite Hc, set_clicks_twice. do 2 f_equal.
      change (clicks (set_clicks l (clicks l + 1))) with (clicks l + 1).
      cbn [length]. lia.
    + intros c' Hc'. rewrite (Hother c' Hc'). unfold s1. cbn [db set_db].
      by apply select_increment_other.
Qed.

Lemma redirect_counts_clicks_witness :
  ∃ s',
    run Demo.URL_parses None None ""
      [mkEvent (GetCode "promo") Demo.rand_zero ""; mkEvent (GetCode "promo") Demo.rand_zero ""]
      (start Demo.three) =
      (replicate 2 (mkResponse 302 (Redirect "https://example.com/a")), s') ∧
    clicks <$> Sql.select_by_code (db s') "promo" = Some 6.
Proof.
  destruct (redirect_counts_clicks Demo.URL_parses None None ""
    [mkEvent (GetCode "promo") Demo.rand_zero ""; mkEvent (GetCode "promo") Demo.rand_zero ""]
    (start Demo.three) "promo"
    (Demo.row 1 "promo" "https://example.com/a" "2024-01-01 10:00:00" 4))
    as (s' & Hrun & Hc & _).
  - discriminate.
  - reflexivity.
  - closed_header_text.
  - repeat constructor.
  - vm_compute. reflexivity.
  - exists s'. split; [exact Hrun|]. rewrite Hc. reflexivity.
Defined.

(** A stored URL that the header refuses: the click is counted, then
    setting [Location] throws and the request is answered 500.  A stored URL
    with a space before it is sent without the space. *)
Example redirect_refused_location :
  let s := start DemoMore.odd in
  (get_code "broken" s).1 = mkResponse 500 (Text "Internal Server Error") ∧
  clicks <$> Sql.select_by_code (db (get_code "broken" s).2) "broken" = Some 1 ∧
  (get_code "padded" s).1 = mkResponse 302 (Redirect "https://example.com/p").
Proof. cbv zeta. repeat split; reflexivity. Qed.

(** The guard for a missing parameter, which the route never reaches with
    a one-segment path. *)
Lemma get_code_empty (s : Server) :
  get_code "" s = (json_error "Short code is required" 400, s).
Proof. reflexivity. Qed.

(** C3: a redirect request for a code that is not stored answers 404 and
    leaves the table and the tokens as they were.  The code is not empty, as
    the route [/:code] binds a path segment of at least one character. *)
Theorem redirect_unknown_code (c : string) (s : Server) :
  c ≠ "" →
  ¬ stored (db s) c →
  get_code c s = (json_error "Short link not found" 404, s).
Proof.
  intros Hne Hc. apply select_by_code_None in Hc.
  unfold get_code. rewrite Hc. by destruct c.
Qed.

Lemma redirect_unknown_code_witness :
  get_code "nosuch" (start Demo.three) =
    (json_error "Short link not found" 404, start Demo.three).
Proof.
  apply redirect_unknown_code.
  - discriminate.
  - apply select_by_code_None. reflexivity.
Defined.

(** ** The link store over the life of the service *)

Lemma row_le_refl (r : Row) : row_le r r.
Proof. unfold row_le. repeat split; lia. Qed.

Lemma row_le_trans (a b c : Row) : row_le a b → row_le b c → row_le a c.
Proof. unfold row_le. intros (?&?&?&?&?) (?&?&?&?&?). repeat split; try congruence; lia. Qed.

Lemma rows_le_refl (links : list Row) : Forall2 row_le links links.
Proof. induction links; constructor; auto using row_le_refl. Qed.

Lemma table_le_refl (links : list Row) : table_le links links.
Proof. exists links, []. split; [by rewrite app_nil_r | apply rows_le_refl]. Qed.

Lemma table_le_app (links new : list Row) : table_le links (links ++ new).
Proof. exists links, new. split; [done | apply rows_le_refl]. Qed.

Lemma table_le_increment (links : list Row) (code : string) :
  table_le links (Sql.increment_clicks links code).
Proof.
  exists (Sql.increment_clicks links code), []. split; [by rewrite app_nil_r|].
  unfold Sql.increment_clicks. induction links as [|r links IH]; constructor; [|exact IH].
  destruct (Sql.code_is code r); [|apply row_le_refl].
  pose proof (add1_bounds (clicks r)).
  unfold row_le. cbn [rowid short_code original_url created_at clicks set_clicks].
  repeat split; lia.
Qed.

#[export] Hint Resolve row_le_refl rows_le_refl table_le_refl table_le_app
  table_le_increment : links.

Lemma table_le_trans (a b c : list Row) : table_le a b → table_le b c → table_le a c.
Proof.
  intros (kept1 & new1 & -> & H1) (kept2 & new2 & -> & H2).
  apply Forall2_app_inv_l in H2 as (k2a & k2b & Ha & Hb & ->).
  exists k2a, (k2b ++ new2). split; [by rewrite app_assoc|].
  clear Hb. revert k2a Ha. induction H1 as [|x y a kept1 Hxy H1 IH]; intros k2a Ha.
  - inversion Ha. constructor.
  - inversion Ha as [|y' z kept1' k2a' Hyz Hrest]; subst.
    constructor; [by eapply row_le_trans | by apply IH].
Qed.

(** What one request can do to the table: nothing, append one row with a
    code that was not stored, or (a redirect only) add 1 to the clicks of
    the rows of one code. *)
Inductive table_step (e : Event) (links : list Row) : list Row → Prop :=
| step_same : table_step e links links
| step_insert code url now :
    ¬ stored links code →
    (∃ body, request e = PostShorten body) ∨
    (∃ authHeader body, request e = PostAdminCreate authHeader body) →
    table_step e links (links ++ [mkRow (Sql.next_rowid links) code url now 0])
| step_click code :
    request e = GetCode code →
    table_step e links (Sql.increment_clicks links code).

Lemma handle_table_step URL_parses env_ADMIN_PASSWORD env_BASE_URL admin_html
    (e : Event) (s : Server) :
  table_step e (db s)
    (db (handle URL_parses env_ADMIN_PASSWORD env_BASE_URL admin_html e s).2).
Proof.
  unfold handle. destruct (request e) eqn:Hreq.
  - constructor.
  - unfold shorten. repeat case_match; simpl; try apply step_same.
    all: match goal with H : Sql.insert _ _ _ _ = Some _ |- _ =>
           apply insert_Some in H as [Hfresh ->] end.
    all: apply step_insert; [done | left; eauto].
  - constructor.
  - unfold admin_auth. repeat case_match; simpl; apply step_same.
  - unfold admin_create. repeat case_match; simpl; try apply step_same.
    all: match goal with H : Sql.insert _ _ _ _ = Some _ |- _ =>
           apply insert_Some in H as [Hfresh ->] end.
    all: apply step_insert; [done | right; eauto].
  - unfold get_code. repeat case_match; simpl; first [apply step_same | by apply step_click].
  - unfold get_stats. repeat case_match; simpl; apply step_same.
  - unfold admin_links. repeat case_match; simpl; apply step_same.
Qed.

Lemma NoDup_codes_insert (links : list Row) (r : Row) :
  NoDup (short_code <$> links) → ¬ stored links (short_code r) →
  NoDup (short_code <$> (links ++ [r])).
Proof.
  intros Hnd Hfresh. rewrite fmap_app. apply NoDup_app. split; [done|].
  split; [|apply NoDup_singleton].
  intros c Hc Hc'. apply list_elem_of_singleton in Hc'. subst. by apply Hfresh.
Qed.

Lemma rows_step_refl (links : list Row) :
  Forall2 (λ r r', row_le r r' ∧ clicks r' ≤ clicks r + 1) links links.
Proof.
  induction links as [|r links IH]; constructor; [|exact IH].
  split; [apply row_le_refl | lia].
Qed.

Lemma rows_step_increment (links : list Row) (code : string) :
  Forall2 (λ r r', row_le r r' ∧ clicks r' ≤ clicks r + 1)
    links (Sql.increment_clicks links code).
Proof.
  unfold Sql.increment_clicks.
  induction links as [|r links IH]; constructor; [|exact IH].
  destruct (Sql.code_is code r); [|split; [apply row_le_refl | lia]].
  pose proof (add1_bounds (clicks r)).
  unfold row_le. cbn [rowid short_code original_url created_at clicks set_clicks].
  repeat split; lia.
Qed.

(** C4: every request keeps the stored codes pairwise distinct, keeps every
    row in place with its identifier, code, URL and creation time, never
    lowers a clicks value and raises it by at most 1; a request other than a
    redirect leaves every existing row exactly as it was. *)
Theorem service_preserves_link_store URL_parses env_ADMIN_PASSWORD env_BASE_URL admin_html
    (e : Event) (s : Server) :
  NoDup (short_code <$> db s) →
  let s' := (handle URL_parses env_ADMIN_PASSWORD env_BASE_URL admin_html e s).2 in
  NoDup (short_code <$> db s') ∧
  (∃ kept new, db s' = kept ++ new ∧
     Forall2 (λ r r', row_le r r' ∧ clicks r' ≤ clicks r + 1) (db s) kept) ∧
  ((∀ c, request e ≠ GetCode c) → ∃ new, db s' = db s ++ new).
Proof.
  intros Hnd s'. subst s'.
  destruct (handle_table_step URL_parses env_ADMIN_PASSWORD env_BASE_URL admin_html e s)
    as [|code url now Hfresh _|code Hreq].
  - split; [done|]. split.
    + exists (db s), []. split; [by rewrite app_nil_r | apply rows_step_refl].
    + intros _. exists []. by rewrite app_nil_r.
  - split; [by apply NoDup_codes_insert|]. split.
    + eexists (db s), _. split; [done | apply rows_step_refl].
    + intros _. by eexists.
  - split; [by rewrite increment_clicks_codes|]. split.
    + exists (Sql.increment_clicks (db s) code), [].
      split; [by rewrite app_nil_r | apply rows_step_increment].
    + intros Hno. by destruct (Hno code).
Qed.

Lemma service_preserves_link_store_witness :
  let s' := (handle Demo.URL_parses None None ""
               (mkEvent (GetCode "promo") Demo.rand_zero "") (start Demo.three)).2 in
  NoDup (short_code <$> db s') ∧
  (∃ kept new, db s' = kept ++ new ∧
     Forall2 (λ r r', row_le r r' ∧ clicks r' ≤ clicks r + 1) (db (start Demo.three)) kept) ∧
  ((∀ c, GetCode "promo" ≠ GetCode c) → ∃ new, db s' = db (start Demo.three) ++ new).
Proof.
  apply (service_preserves_link_store Demo.URL_parses None None ""
           (mkEvent (GetCode "promo") Demo.rand_zero "") (start Demo.three)).
  apply (bool_decide_unpack _). vm_compute. exact I.
Defined.

(** X17: the same over a whole run: codes stay distinct and no row is lost
    or rewritten, whatever requests arrive. *)
Lemma run_preserves_link_store URL_parses env_ADMIN_PASSWORD env_BASE_URL admin_html
    (es : list Event) (s : Server) :
  NoDup (short_code <$> db s) →
  let s' := (run URL_parses env_ADMIN_PASSWORD env_BASE_URL admin_html es s).2 in
  NoDup (short_code <$> db s') ∧ table_le (db s) (db s').
Proof.
  revert s. induction es as [|e es IH]; intros s Hnd; simpl.
  - split; [done | auto with links].
  - destruct (handle _ _ _ _ e s) as [r s1] eqn:Hh.
    destruct (run _ _ _ _ es s1) as [rs s2] eqn:Hr. simpl.
    pose proof (Hstep := handle_table_step
      URL_parses env_ADMIN_PASSWORD env_BASE_URL admin_html e s).
    rewrite Hh in Hstep. simpl in *.
    assert (NoDup (short_code <$> db s1) ∧ table_le (db s) (db s1)) as [Hnd1 Hle1].
    { destruct Hstep as [|code url now Hfresh _|code Hreq].
      - split; [done | auto with links].
      - split; [by apply NoDup_codes_insert | auto with links].
      - split; [by rewrite increment_clicks_codes | auto with links]. }
    specialize (IH s1 Hnd1). rewrite Hr in IH. simpl in IH. destruct IH as [Hnd2 Hle2].
    split; [done | by eapply table_le_trans].
Qed.

(** ** Bearer tokens *)

Lemma prefix_split (p s : string) :
  String.prefix p s = true → s = p +:+ JS.substring s (String.length p).
Proof.
  revert s. induction p as [|a p IH]; intros s H; [done|].
  destruct s as [|b s]; [done|]. simpl in H.
  destruct (ascii_dec a b) as [->|]; [|done].
  change (String b s = String b (p +:+ JS.substring s (String.length p))).
  f_equal. by apply IH.
Qed.

Lemma prefix_app (p t : string) : String.prefix p (p +:+ t) = true.
Proof.
  induction p as [|a p IH]; simpl; [by destruct t|].
  by destruct (ascii_dec a a).
Qed.

Lemma substring_app (p t : string) : JS.substring (p +:+ t) (String.length p) = t.
Proof. induction p as [|a p IH]; simpl; [by destruct t | done]. Qed.

Lemma validateToken_carries (V : gset string) (h : option string) :
  validateToken V h = true ↔ carries V h.
Proof.
  unfold validateToken, carries. split.
  - destruct h as [[|c h]|]; [done| |done].
    cbn [JS.truthy].
    destruct (JS.startsWith (String c h) "Bearer ") eqn:Hp; [|done].
    cbn [negb]. intros Hin. apply bool_decide_eq_true in Hin.
    exists (JS.substring (String c h) 7). split; [|done].
    f_equal. by apply (prefix_split "Bearer ").
  - intros (t & -> & Hin).
    change (JS.truthy (Some ("Bearer " +:+ t))) with (Some ("Bearer " +:+ t)).
    unfold JS.startsWith. rewrite prefix_app. simpl negb. cbv iota.
    replace (JS.substring ("Bearer " +:+ t) 7) with t
      by (symmetry; apply (substring_app "Bearer " t)).
    by apply bool_decide_eq_true.
Qed.

Lemma admin_create_unauthorized URL_parses env_BASE_URL (now : string)
    (h : option string) (body : option CustomSlugRequest) (s : Server) :
  validateToken (validTokens s) h = false →
  admin_create URL_parses env_BASE_URL now h body s = (json_error "Unauthorized" 401, s).
Proof. intros H. unfold admin_create. by rewrite H. Qed.

Lemma admin_links_unauthorized (h pageParam limitParam searchParam : option string)
    (s : Server) :
  validateToken (validTokens s) h = false →
  admin_links h pageParam limitParam searchParam s = (json_error "Unauthorized" 401, s).
Proof. intros H. unfold admin_links. by rewrite H. Qed.

Lemma admin_create_status_401 URL_parses env_BASE_URL (now : string)
    (h : option string) (body : option CustomSlugRequest) (s : Server) :
  status (admin_create URL_parses env_BASE_URL now h body s).1 = 401 ↔
  validateToken (validTokens s) h = false.
Proof.
  split.
  - unfold admin_create. destruct (validateToken (validTokens s) h); [|done].
    simpl negb. cbv iota. repeat case_match; simpl; done.
  - intros H. by rewrite admin_create_unauthorized.
Qed.

Lemma admin_links_status_401 (h pageParam limitParam searchParam : option string)
    (s : Server) :
  status (admin_links h pageParam limitParam searchParam s).1 = 401 ↔
  validateToken (validTokens s) h = false.
Proof.
  split.
  - unfold admin_links. destruct (validateToken (validTokens s) h); [|done].
    simpl negb. cbv iota. repeat case_match; simpl; done.
  - intros H. by rewrite admin_links_unauthorized.
Qed.

(** The token set after one request: what it was, and the token the request
    was answered with if it was a successful login. *)
Lemma handle_tokens URL_parses env_ADMIN_PASSWORD env_BASE_URL admin_html
    (e : Event) (s : Server) :
  let rs := handle URL_parses env_ADMIN_PASSWORD env_BASE_URL admin_html e s in
  validTokens rs.2 = issued_by e rs.1 ∪ validTokens s.
Proof.
  unfold handle, issued_by.
  destruct (request e) as [|bo| |bo|h bo|c|c|h pg lm sr] eqn:Hreq; simpl.
  - by rewrite (left_id_L ∅ (∪)).
  - rewrite (left_id_L ∅ (∪)). unfold shorten. repeat case_match; done.
  - by rewrite (left_id_L ∅ (∪)).
  - unfold admin_auth. destruct bo as [b|]; simpl.
    + destruct (bool_decide (password b = Some (ADMIN_PASSWORD env_ADMIN_PASSWORD))); simpl.
      * done.
      * by rewrite (left_id_L ∅ (∪)).
    + by rewrite (left_id_L ∅ (∪)).
  - rewrite (left_id_L ∅ (∪)). unfold admin_create. repeat case_match; done.
  - rewrite (left_id_L ∅ (∪)). unfold get_code. repeat case_match; done.
  - rewrite (left_id_L ∅ (∪)). unfold get_stats. repeat case_match; done.
  - rewrite (left_id_L ∅ (∪)). unfold admin_links. repeat case_match; done.
Qed.

Lemma run_tokens URL_parses env_ADMIN_PASSWORD env_BASE_URL admin_html
    (es : list Event) (s : Server) :
  let rs := run URL_parses env_ADMIN_PASSWORD env_BASE_URL admin_html es s in
  validTokens rs.2 = validTokens s ∪ issued es rs.1.
Proof.
  revert s. induction es as [|e es IH]; intros s; simpl.
  - by rewrite (right_id_L ∅ (∪)).
  - pose proof (handle_tokens URL_parses env_ADMIN_PASSWORD env_BASE_URL admin_html e s) as He.
    destruct (handle _ _ _ _ e s) as [r s1].
    specialize (IH s1).
    destruct (run _ _ _ _ es s1) as [rs s2]. simpl in *.
    rewrite IH, He. rewrite (comm_L (∪) (issued_by e r) (validTokens s)).
    by rewrite (assoc_L (∪)).
Qed.

(** C6: after any run of requests from the start of the process, both admin
    endpoints answer 401 exactly when the Authorization header is not
    [Bearer ] followed by a token that a successful login of that run
    returned.  No request removes a token, so a token once issued is
    accepted for the rest of the run. *)
Theorem admin_endpoints_accept_exactly_issued_tokens
    URL_parses env_ADMIN_PASSWORD env_BASE_URL admin_html
    (links : list Row) (es : list Event) (rs : list Response) (s : Server) :
  run URL_parses env_ADMIN_PASSWORD env_BASE_URL admin_html es (start links) = (rs, s) →
  ∀ (now : string) (h : option string) (body : option CustomSlugRequest)
    (pageParam limitParam searchParam : option string),
    (status (admin_create URL_parses env_BASE_URL now h body s).1 = 401
       ↔ ¬ carries (issued es rs) h) ∧
    (status (admin_links h pageParam limitParam searchParam s).1 = 401
       ↔ ¬ carries (issued es rs) h).
Proof.
  intros Hrun now h body pageParam limitParam searchParam.
  pose proof (run_tokens URL_parses env_ADMIN_PASSWORD env_BASE_URL admin_html
                es (start links)) as Htok.
  rewrite Hrun in Htok. simpl in Htok. rewrite (left_id_L ∅ (∪)) in Htok.
  rewrite admin_create_status_401, admin_links_status_401, Htok.
  rewrite <- validateToken_carries.
  destruct (validateToken (issued es rs) h); split; split; try done.
  all: intros H; by destruct H.
Qed.

Lemma admin_endpoints_accept_exactly_issued_tokens_witness :
  (status (admin_create Demo.URL_parses None "2024-01-04 09:00:01"
             (Some ("Bearer " +:+ Demo.token)) None
             (add_token (start Demo.three) Demo.token)).1 = 401
     ↔ ¬ carries (issued [Demo.login] [json (Token Demo.token)])
           (Some ("Bearer " +:+ Demo.token))) ∧
  (status (admin_links (Some ("Bearer " +:+ Demo.token)) None None None
             (add_token (start Demo.three) Demo.token)).1 = 401
     ↔ ¬ carries (issued [Demo.login] [json (Token Demo.token)])
           (Some ("Bearer " +:+ Demo.token))).
Proof.
  apply (admin_endpoints_accept_exactly_issued_tokens Demo.URL_parses None None ""
           Demo.three [Demo.login] [json (Token Demo.token)]
           (add_token (start Demo.three) Demo.token)).
  reflexivity.
Defined.

(** *** Tokens have no space in them *)

Lemma get_elem_of (s : string) (i : nat) (c : ascii) :
  String.get i s = Some c → c ∈ String.list_ascii_of_string s.
Proof.
  revert i. induction s as [|a s IH]; intros i H; [done|].
  destruct i as [|i]; simpl in *.
  - injection H as ->. apply list_elem_of_here.
  - apply list_elem_of_further. by eapply IH.
Qed.

Lemma list_ascii_app (a b : string) :
  String.list_ascii_of_string (a +:+ b) =
  String.list_ascii_of_string a ++ String.list_ascii_of_string b.
Proof. induction a as [|c a IH]; simpl; [done | by rewrite IH]. Qed.

Lemma random_chars_over_chars (rand : nat → nat) (n k : nat) (result : string) :
  over_chars result → over_chars (random_chars rand k n result).1.
Proof.
  revert k result. induction n as [|n IH]; intros k result Hres; [done|].
  cbn [random_chars]. apply IH. unfold over_chars in *.
  rewrite list_ascii_app. apply Forall_app. split; [done|].
  unfold JS.charAt. destruct (String.get (rand k) chars) as [c|] eqn:Hget.
  - constructor; [by eapply get_elem_of | constructor].
  - constructor.
Qed.

Lemma over_chars_no_bearer (t : string) :
  over_chars t → JS.startsWith t "Bearer " = false.
Proof.
  intros Ht. destruct (JS.startsWith t "Bearer ") eqn:Hp; [|done]. exfalso.
  apply (prefix_split "Bearer ") in Hp. rewrite Hp in Ht.
  unfold over_chars in Ht. rewrite list_ascii_app in Ht.
  apply Forall_app in Ht as [Ht _].
  assert (Hsp : " "%char ∈ String.list_ascii_of_string "Bearer ")
    by (apply (bool_decide_unpack _); vm_compute; exact I).
  pose proof (proj1 (Forall_forall _ _) Ht _ Hsp) as Hin.
  revert Hin. apply (bool_decide_unpack _). vm_compute. exact I.
Qed.

Lemma handle_tokens_over_chars URL_parses env_ADMIN_PASSWORD env_BASE_URL admin_html
    (e : Event) (s : Server) :
  (∀ t, t ∈ validTokens s → over_chars t) →
  ∀ t, t ∈ validTokens (handle URL_parses env_ADMIN_PASSWORD env_BASE_URL admin_html e s).2 →
       over_chars t.
Proof.
  intros Hs t.
  rewrite (handle_tokens URL_parses env_ADMIN_PASSWORD env_BASE_URL admin_html e s).
  rewrite elem_of_union. intros [Hnew|Hold]; [|by apply Hs].
  revert Hnew. unfold issued_by, handle.
  destruct (request e) as [|bo| |bo|h bo|c|c|h pg lm sr] eqn:Hreq;
    try (intros Hin; no_token Hin).
  unfold admin_auth.
  destruct bo as [b|]; [|cbn; intros Hin; no_token Hin].
  destruct (bool_decide (password b = Some (ADMIN_PASSWORD env_ADMIN_PASSWORD)));
    [|cbn; intros Hin; no_token Hin].
  cbn -[generateToken]. intros Hin. apply elem_of_singleton in Hin as ->.
  unfold generateToken. apply random_chars_over_chars. constructor.
Qed.

Lemma run_tokens_over_chars URL_parses env_ADMIN_PASSWORD env_BASE_URL admin_html
    (es : list Event) (s : Server) :
  (∀ t, t ∈ validTokens s → over_chars t) →
  ∀ t, t ∈ validTokens (run URL_parses env_ADMIN_PASSWORD env_BASE_URL admin_html es s).2 →
       over_chars t.
Proof.
  revert s. induction es as [|e es IH]; intros s Hs; [done|].
  cbn [run].
  pose proof (handle_tokens_over_chars URL_parses env_ADMIN_PASSWORD env_BASE_URL
                admin_html e s Hs) as H1.
  destruct (handle _ _ _ _ e s) as [r s1]. specialize (IH s1 H1).
  by destruct (run _ _ _ _ es s1) as [rs s2].
Qed.

(** C10: after any run of requests, an admin request whose Authorization
    header is absent, or does not start with [Bearer ], or is a valid token
    on its own without that prefix, is answered 401 by both admin endpoints,
    and the state is left as it was. *)
Theorem admin_endpoints_need_bearer_prefix
    URL_parses env_ADMIN_PASSWORD env_BASE_URL admin_html
    (links : list Row) (es : list Event) (rs : list Response) (s : Server) :
  run URL_parses env_ADMIN_PASSWORD env_BASE_URL admin_html es (start links) = (rs, s) →
  ∀ (now : string) (h : option string) (body : option CustomSlugRequest)
    (pageParam limitParam searchParam : option string),
    h = None ∨
    (∃ v, h = Some v ∧ JS.startsWith v "Bearer " = false) ∨
    (∃ t, h = Some t ∧ t ∈ validTokens s) →
    admin_create URL_parses env_BASE_URL now h body s = (json_error "Unauthorized" 401, s) ∧
    admin_links h pageParam limitParam searchParam s = (json_error "Unauthorized" 401, s).
Proof.
  intros Hrun now h body pageParam limitParam searchParam Hh.
  assert (Hno : validateToken (validTokens s) h = false).
  { assert (Hnp : h = None ∨ ∃ v, h = Some v ∧ JS.startsWith v "Bearer " = false).
    { destruct Hh as [->|[Hv|(t & -> & Hin)]]; [by left | by right |].
      right. exists t. split; [done|]. apply over_chars_no_bearer.
      pose proof (run_tokens_over_chars URL_parses env_ADMIN_PASSWORD env_BASE_URL
                    admin_html es (start links)) as Hinv.
      rewrite Hrun in Hinv. apply Hinv; [|done].
      intros t' Ht'. no_token Ht'. }
    unfold validateToken. destruct Hnp as [->|(v & -> & Hv)]; [done|].
    destruct v as [|c v]; [done|]. cbn [JS.truthy]. by rewrite Hv. }
  split; [by apply admin_create_unauthorized | by apply admin_links_unauthorized].
Qed.

Lemma admin_endpoints_need_bearer_prefix_witness :
  admin_create Demo.URL_parses None "2024-01-04 09:00:01" (Some Demo.token)
    (Some {| cs_url := Some "https://example.com"; slug := Some "fresh" |})
    (add_token (start Demo.three) Demo.token)
    = (json_error "Unauthorized" 401, add_token (start Demo.three) Demo.token) ∧
  admin_links (Some Demo.token) None None None (add_token (start Demo.three) Demo.token)
    = (json_error "Unauthorized" 401, add_token (start Demo.three) Demo.token).
Proof.
  apply (admin_endpoints_need_bearer_prefix Demo.URL_parses None None ""
           Demo.three [Demo.login] [json (Token Demo.token)]
           (add_token (start Demo.three) Demo.token)).
  - reflexivity.
  - right. right. exists Demo.token. split; [reflexivity|].
    apply (bool_decide_unpack _). vm_compute. exact I.
Defined.

(** ** Custom slugs *)

(** The ranges of the character class are the letters, the digits, the
    hyphen and the underscore: checked on each of the 256 characters. *)
Lemma slug_class_character (c : ascii) : slug_class c = true ↔ slug_character c.
Proof.
  rewrite <- (bool_decide_spec (slug_character c)).
  assert (slug_class c = bool_decide (slug_character c)) as ->; [|by destruct (bool_decide _)].
  destruct c as [[] [] [] [] [] [] [] []]; vm_compute; reflexivity.
Qed.

Lemma length_list_ascii (s : string) :
  length (String.list_ascii_of_string s) = String.length s.
Proof. induction s; simpl; auto. Qed.

Lemma isValidSlug_spec (s : string) : isValidSlug s = true ↔ slug_spec s.
Proof.
  unfold isValidSlug, slug_spec, slug_regex_test.
  rewrite !andb_true_iff, Nat.leb_le, Nat.leb_le.
  destruct s as [|c s].
  - simpl. split; [intros [[? _] _]; done | intros [? _]; done].
  - cbn [String.list_ascii_of_string].
    rewrite forallb_forall, Forall_forall.
    split.
    + intros [[Hall _] Hlen]. split; [done|]. split; [done|].
      intros x Hx. apply slug_class_character, Hall. by apply list_elem_of_In.
    + intros (_ & Hlen & Hall). split; [split|done].
      * intros x Hx. apply slug_class_character, Hall. by apply list_elem_of_In.
      * simpl. lia.
Qed.

Lemma admin_create_authorized URL_parses env_BASE_URL (now u sl : string)
    (h : option string) (b : CustomSlugRequest) (s : Server) :
  validateToken (validTokens s) h = true →
  JS.truthy (cs_url b) = Some u → URL_parses u = true →
  slug b = Some sl →
  admin_create URL_parses env_BASE_URL now h (Some b) s =
    if negb (isValidSlug sl)
    then (mkResponse 400
            (Error (if String.eqb sl "" then "Slug is required"
                    else "Invalid slug format. Use only letters, numbers, hyphens, and underscores (1-50 chars)")),
          s)
    else if found (Sql.select_by_code (db s) sl)
    then (json_error "This slug is already taken" 409, s)
    else (json (Shortened (mkShortenResponse sl (baseUrl env_BASE_URL +:+ "/" +:+ sl) u)),
          set_db s (db s ++ [mkRow (Sql.next_rowid (db s)) sl u now 0])).
Proof.
  intros Htok Hu Hvalid Hsl. unfold admin_create, isValidUrl.
  rewrite Htok, Hu, Hvalid, Hsl. cbn [negb].
  destruct sl as [|c sl]; [done|]. cbn [JS.truthy].
  destruct (isValidSlug (String c sl)); cbn [negb]; [|done].
  destruct (Sql.select_by_code (db s) (String c sl)) eqn:Hsel; cbn [found]; [done|].
  unfold Sql.insert. by rewrite Hsel.
Qed.

(** What fails in C5 as it is stated: a request with a valid token whose
    slug is stored is answered 400, not 409, when its URL is missing or is
    not a URL, because the URL is checked before the slug is looked up. *)
Lemma taken_slug_with_missing_url_gets_400 :
  let s := Demo.logged_in Demo.three in
  let h := Some ("Bearer " +:+ Demo.token) in
  validateToken (validTokens s) h = true ∧
  stored (db s) "promo" ∧
  admin_create Demo.URL_parses None "2024-01-04 09:00:00" h
      (Some {| cs_url := None; slug := Some "promo" |}) s
    = (json_error "URL is required" 400, s) ∧
  status (admin_create Demo.URL_parses None "2024-01-04 09:00:00" h
            (Some {| cs_url := None; slug := Some "promo" |}) s).1 ≠ 409.
Proof.
  cbv zeta. split; [reflexivity|]. split; [|split; [reflexivity | discriminate]].
  apply found_stored. reflexivity.
Qed.

(** C5 as amended: a request with a valid token and a valid URL whose slug
    passes the slug validator and is already stored is answered 409, and
    the table and the tokens are left exactly as they were. *)
Theorem admin_create_taken_slug URL_parses env_BASE_URL (now u sl : string)
    (h : option string) (b : CustomSlugRequest) (s : Server) :
  validateToken (validTokens s) h = true →
  JS.truthy (cs_url b) = Some u → URL_parses u = true →
  slug b = Some sl → isValidSlug sl = true →
  stored (db s) sl →
  admin_create URL_parses env_BASE_URL now h (Some b) s =
    (json_error "This slug is already taken" 409, s).
Proof.
  intros Htok Hu Hvalid Hsl Hok Hst.
  rewrite (admin_create_authorized _ _ now u sl h b s Htok Hu Hvalid Hsl).
  rewrite Hok. cbn [negb]. apply found_stored in Hst. by rewrite Hst.
Qed.

Lemma admin_create_taken_slug_witness :
  admin_create Demo.URL_parses None "2024-01-04 09:00:00"
      (Some ("Bearer " +:+ Demo.token))
      (Some {| cs_url := Some "https://example.com/new"; slug := Some "promo" |})
      (Demo.logged_in Demo.three)
    = (json_error "This slug is already taken" 409, Demo.logged_in Demo.three).
Proof.
  apply (admin_create_taken_slug Demo.URL_parses None "2024-01-04 09:00:00"
           "https://example.com/new" "promo").
  - reflexivity.
  - reflexivity.
  - reflexivity.
  - reflexivity.
  - reflexivity.
  - apply found_stored. reflexivity.
Defined.

(** The slug validator also comes before the lookup: a stored code that the
    validator rejects (one that a table written by another program may
    hold) is answered 400 as well. *)
Lemma admin_create_stored_malformed_slug :
  let s := Demo.logged_in [Demo.row 1 "a b" "https://example.com" "2024-01-01 10:00:00" 0] in
  stored (db s) "a b" ∧
  admin_create Demo.URL_parses None "2024-01-04 09:00:00" (Some ("Bearer " +:+ Demo.token))
      (Some {| cs_url := Some "https://example.com/new"; slug := Some "a b" |}) s
    = (json_error "Invalid slug format. Use only letters, numbers, hyphens, and underscores (1-50 chars)" 400, s).
Proof. cbv zeta. split; [apply found_stored|]; reflexivity. Qed.

(** X20: whatever else the request holds (token or none, URL or none), a
    request for a slug that is stored leaves the table and the tokens as they
    were. *)
Lemma admin_create_stored_slug_state URL_parses env_BASE_URL (now sl : string)
    (h : option string) (b : CustomSlugRequest) (s : Server) :
  slug b = Some sl → stored (db s) sl →
  (admin_create URL_parses env_BASE_URL now h (Some b) s).2 = s.
Proof.
  intros Hsl Hst. apply found_stored in Hst.
  unfold admin_create. rewrite Hsl.
  destruct (negb (validateToken (validTokens s) h)); [done|].
  destruct (JS.truthy (cs_url b)) as [u|]; [|done].
  destruct (negb (isValidUrl URL_parses u)); [done|].
  destruct sl as [|c sl]; [done|]. cbn [JS.truthy].
  destruct (negb (isValidSlug (String c sl))); [done|].
  by rewrite Hst.
Qed.

(** C8: the slug validator accepts exactly the non-empty strings of at most
    50 letters, digits, hyphens and underscores; and with a valid token and a
    valid URL, the custom-slug endpoint answers 400 exactly when the slug it
    is given fails that predicate. *)
Theorem slug_validator_and_endpoint URL_parses env_BASE_URL :
  (∀ sl, isValidSlug sl = true ↔ slug_spec sl) ∧
  (∀ (now u sl : string) (h : option string) (b : CustomSlugRequest) (s : Server),
     validateToken (validTokens s) h = true →
     JS.truthy (cs_url b) = Some u → URL_parses u = true →
     slug b = Some sl →
     (status (admin_create URL_parses env_BASE_URL now h (Some b) s).1 = 400
        ↔ ¬ slug_spec sl)).
Proof.
  split; [apply isValidSlug_spec|].
  intros now u sl h b s Htok Hu Hvalid Hsl.
  rewrite (admin_create_authorized _ _ now u sl h b s Htok Hu Hvalid Hsl).
  rewrite <- isValidSlug_spec.
  destruct (isValidSlug sl); cbn [negb].
  - destruct (found _); simpl; split; done.
  - simpl. split; done.
Qed.

Lemma slug_validator_and_endpoint_witness :
  (isValidSlug "my-slug_1" = true ↔ slug_spec "my-slug_1") ∧
  (status (admin_create Demo.URL_parses None "2024-01-04 09:00:00"
             (Some ("Bearer " +:+ Demo.token))
             (Some {| cs_url := Some "https://example.com/new"; slug := Some "no spaces" |})
             (Demo.logged_in Demo.three)).1 = 400
     ↔ ¬ slug_spec "no spaces").
Proof.
  split.
  - apply (proj1 (slug_validator_and_endpoint Demo.URL_parses None)).
  - apply (proj2 (slug_validator_and_endpoint Demo.URL_parses None)
             "2024-01-04 09:00:00" "https://example.com/new" "no spaces").
    + reflexivity.
    + reflexivity.
    + reflexivity.
    + reflexivity.
Defined.

Example isValidSlug_accepts : isValidSlug "my-slug_1" = true.
Proof. reflexivity. Qed.
Example isValidSlug_rejects_space : isValidSlug "no spaces" = false.
Proof. reflexivity. Qed.
Example isValidSlug_rejects_empty : isValidSlug "" = false.
Proof. reflexivity. Qed.
Example isValidSlug_rejects_51 :
  isValidSlug "aaaaaaaaaaaaaaaaaaaaaaaaaaaaaaaaaaaaaaaaaaaaaaaaaaa" = false.
Proof. reflexivity. Qed.
Example isValidSlug_accepts_50 :
  isValidSlug "aaaaaaaaaaaaaaaaaaaaaaaaaaaaaaaaaaaaaaaaaaaaaaaaaa" = true.
Proof. reflexivity. Qed.

(** ** The admin list *)

Global Instance created_desc_total : Total Sql.created_desc.
Proof.
  intros a b. unfold Sql.created_desc.
  destruct (stdpp.base.total String.le (created_at a) (created_at b)); auto.
Qed.

Global Instance created_desc_trans : Transitive Sql.created_desc.
Proof. intros a b c Hab Hbc. unfold Sql.created_desc in *. by etrans. Qed.

Lemma insert_desc_perm (x : Row) (rows : list Row) :
  Sql.insert_desc x rows ≡ₚ x :: rows.
Proof.
  induction rows as [|y rows IH]; [done|].
  cbn [Sql.insert_desc]. destruct (decide (Sql.created_desc x y)); [done|].
  rewrite IH. apply Permutation_swap.
Qed.

Lemma insert_desc_sorted (x : Row) (rows : list Row) :
  StronglySorted Sql.created_desc rows →
  StronglySorted Sql.created_desc (Sql.insert_desc x rows).
Proof.
  induction 1 as [|y rows Hrows IH Hy]; cbn [Sql.insert_desc].
  - repeat constructor.
  - destruct (decide (Sql.created_desc x y)) as [Hxy|Hxy].
    + constructor; [by constructor|]. constructor; [done|].
      eapply Forall_impl; [exact Hy|]. intros z Hz. by etrans.
    + constructor; [done|]. rewrite insert_desc_perm. constructor; [|done].
      by destruct (stdpp.base.total Sql.created_desc x y).
Qed.

Lemma order_by_created_desc_sorted (rows : list Row) :
  StronglySorted Sql.created_desc (Sql.order_by_created_desc rows).
Proof.
  induction rows as [|x rows IH]; [constructor|].
  by apply insert_desc_sorted.
Qed.

Lemma order_by_created_desc_perm (rows : list Row) :
  Sql.order_by_created_desc rows ≡ₚ rows.
Proof.
  induction rows as [|x rows IH]; [done|].
  cbn [Sql.order_by_created_desc foldr]. rewrite insert_desc_perm.
  by constructor.
Qed.

(** Rows created at the same time stay in the order of the table. *)
Example order_by_created_desc_ties :
  short_code <$> Sql.order_by_created_desc DemoMore.tied = ["first"; "second"; "third"].
Proof. reflexivity. Qed.

(** [Math.ceil(T / L)] is the least number of pages of [L] rows that hold
    [T] rows. *)
Lemma Math_ceil_quotient (T L : Z) :
  1 ≤ L →
  let pages := JS.Math_ceil (inject_Z T / inject_Z L) in
  (pages - 1) * L < T ≤ pages * L.
Proof.
  intros HL pages.
  pose proof (Qle_ceiling (inject_Z T / inject_Z L)) as Hup.
  pose proof (Qceiling_lt (inject_Z T / inject_Z L)) as Hlow.
  fold (JS.Math_ceil (inject_Z T / inject_Z L)) in Hup, Hlow. fold pages in Hup, Hlow.
  assert (HLq : (0 < inject_Z L)%Q).
  { change 0%Q with (inject_Z 0). rewrite <- Zlt_Qlt. lia. }
  assert (HL0 : ¬ (inject_Z L == 0)%Q).
  { intros E. rewrite E in HLq. by apply Qlt_irrefl in HLq. }
  assert (Hq : (inject_Z T / inject_Z L * inject_Z L == inject_Z T)%Q).
  { rewrite Qmult_comm. by apply Qmult_div_r. }
  split.
  - apply (Qmult_lt_r _ _ _ HLq) in Hlow.
    rewrite Hq, <- inject_Z_mult, <- Zlt_Qlt in Hlow. exact Hlow.
  - apply (Qmult_le_r _ _ _ HLq) in Hup.
    rewrite Hq, <- inject_Z_mult, <- Zle_Qle in Hup. exact Hup.
Qed.

Lemma searched_rows (searchParam : option string) (links : list Row) :
  match JS.or_else searchParam "" with
  | EmptyString => links
  | String _ _ =>
      filter (λ r, Sql.matches ("%" +:+ JS.or_else searchParam "" +:+ "%") r = true) links
  end = searched searchParam links.
Proof.
  unfold searched, JS.or_else. by destruct searchParam as [[|c q]|].
Qed.

(** *** Numbers in range *)

Lemma to_double_safe (z : Z) : Z.abs z < 2 ^ 53 → JS.to_double z = z.
Proof. intros H. unfold JS.to_double. by rewrite (proj2 (Z.ltb_lt _ _) H). Qed.

Lemma int64_in_range (v : Z) : - 2 ^ 63 ≤ v < 2 ^ 63 → Sql.int64 v = true.
Proof.
  intros [Hlo Hhi]. unfold Sql.int64.
  by rewrite (proj2 (Z.leb_le _ _) Hlo), (proj2 (Z.ltb_lt _ _) Hhi).
Qed.

Lemma first_rows_take (n : Z) (rows : list Row) :
  Sql.first_rows n rows = take (Z.to_nat n) rows.
Proof.
  revert n. induction rows as [|r rows IH]; intros n; cbn [Sql.first_rows].
  - by destruct (Z.to_nat n).
  - destruct (n <=? 0) eqn:E.
    + apply Z.leb_le in E. by replace (Z.to_nat n) with 0%nat by lia.
    + apply Z.leb_gt in E. replace (Z.to_nat n) with (S (Z.to_nat (n - 1))) by lia.
      cbn [take]. by rewrite IH.
Qed.

Lemma skip_rows_drop (n : Z) (rows : list Row) :
  Sql.skip_rows n rows = drop (Z.to_nat n) rows.
Proof.
  revert n. induction rows as [|r rows IH]; intros n; cbn [Sql.skip_rows].
  - by destruct (Z.to_nat n).
  - destruct (n <=? 0) eqn:E.
    + apply Z.leb_le in E. by replace (Z.to_nat n) with 0%nat by lia.
    + apply Z.leb_gt in E. replace (Z.to_nat n) with (S (Z.to_nat (n - 1))) by lia.
      cbn [drop]. by rewrite IH.
Qed.

Lemma limit_offset_in_range (L off : Z) (rows : list Row) :
  0 ≤ L < 2 ^ 63 → 0 ≤ off < 2 ^ 63 →
  Sql.limit_offset L off rows = Some (take (Z.to_nat L) (drop (Z.to_nat off) rows)).
Proof.
  intros HL Hoff. unfold Sql.limit_offset.
  rewrite !int64_in_range by lia. cbn [andb].
  rewrite (proj2 (Z.ltb_ge _ _)) by lia.
  by rewrite first_rows_take, skip_rows_drop.
Qed.

Lemma safe_paging_offset (p L : Z) :
  safe_paging p L →
  JS.to_double (JS.to_double (p - 1) * L) = (p - 1) * L ∧
  0 ≤ L < 2 ^ 63 ∧ 0 ≤ (p - 1) * L < 2 ^ 63.
Proof.
  unfold safe_paging, safe_integer. intros (Hp & HL & Hps & HLs & Hoff).
  rewrite (to_double_safe (p - 1)) by lia.
  rewrite to_double_safe by lia. lia.
Qed.

Lemma fold_sum_step (vs : list Z) (a : Z) :
  Forall (λ v, 0 ≤ v) vs → 0 ≤ a → a + foldr Z.add 0 vs < 2 ^ 63 →
  fold_left Sql.sum_step vs (Sql.mkSum a false false) =
  Sql.mkSum (a + foldr Z.add 0 vs) false false.
Proof.
  revert a. induction vs as [|v vs IH]; intros a Hvs Ha Hsum.
  - cbn. by rewrite Z.add_0_r.
  - apply Forall_cons in Hvs as [Hv Hvs]. cbn [foldr] in Hsum.
    assert (Hrest : 0 ≤ foldr Z.add 0 vs).
    { clear -Hvs. induction Hvs; cbn; lia. }
    cbn [fold_left]. unfold Sql.sum_step at 2. cbn [Sql.sum_real Sql.sum_so_far].
    rewrite !int64_in_range by lia.
    rewrite IH by (done || lia). cbn [foldr]. f_equal. lia.
Qed.

(** On a table whose counters fit, [SUM(clicks)] does not throw and
    [totalClicks] is the sum of the counters. *)
Lemma sum_clicks_fit (links : list Row) :
  clicks_fit links →
  ∃ t, Sql.sum_clicks links = Some t ∧
       JS.to_double (default 0 t) = foldr Z.add 0 (clicks <$> links).
Proof.
  intros [Hpos Hsum]. unfold safe_integer in Hsum.
  destruct links as [|r links]; [by exists None|].
  exists (Some (foldr Z.add 0 (clicks <$> r :: links))). split.
  - unfold Sql.sum_clicks. rewrite fold_sum_step.
    + done.
    + by apply Forall_fmap.
    + done.
    + lia.
  - cbn [default from_option id]. apply to_double_safe. lia.
Qed.

(** The answer of [/admin/links] to a request with a valid token, paging
    numbers the program computes with exactly, and a table whose counters
    fit. *)
Lemma admin_links_page (h pageParam limitParam searchParam : option string)
    (s : Server) (p L : Z) :
  validateToken (validTokens s) h = true →
  JS.parseInt (JS.or_else pageParam "1") = Some p →
  JS.parseInt (JS.or_else limitParam "50") = Some L →
  safe_paging p L → clicks_fit (db s) →
  let rows := searched searchParam (db s) in
  admin_links h pageParam limitParam searchParam s =
    (json (LinkPage
       (select_columns <$> page_rows L p (Sql.order_by_created_desc rows))
       (mkPagination p L (Z.of_nat (length rows))
          (JS.Math_ceil (inject_Z (Z.of_nat (length rows)) / inject_Z L)))
       (mkStats (Z.of_nat (length rows)) (foldr Z.add 0 (clicks <$> db s)))),
     s).
Proof.
  intros Htok Hp HL Hsafe Hfit rows. unfold admin_links.
  rewrite Htok, Hp, HL. cbn [negb].
  destruct (safe_paging_offset p L Hsafe) as (Hoff & HLr & Hoffr).
  destruct Hsafe as (Hp1 & HL1 & _).
  assert ((p <? 1) || (L <? 1) = false) as ->.
  { apply orb_false_iff. split; apply Z.ltb_ge; lia. }
  pose proof (searched_rows searchParam (db s)) as Hrows. fold rows in Hrows.
  destruct (sum_clicks_fit (db s) Hfit) as (t & Hsum & Ht).
  rewrite Hoff, Hsum, Ht. unfold Sql.count.
  set (sum := foldr Z.add 0 (clicks <$> db s)). clearbody sum.
  destruct (JS.or_else searchParam "") eqn:Hq; rewrite Hrows;
    by rewrite limit_offset_in_range by done.
Qed.

(** X24: paging numbers beyond 64 bits.  With a valid token and a page and
    a limit of at least 1, when the limit or the offset the handler computes
    from them is [2^63] or more, the query throws on the number bound to
    [LIMIT ? OFFSET ?], nothing catches it, and the request is answered 500
    with the state as it was. *)
Theorem admin_links_beyond_int64 (h pageParam limitParam searchParam : option string)
    (s : Server) (p L : Z) :
  validateToken (validTokens s) h = true →
  JS.parseInt (JS.or_else pageParam "1") = Some p →
  JS.parseInt (JS.or_else limitParam "50") = Some L →
  1 ≤ p → 1 ≤ L →
  2 ^ 63 ≤ L ∨ 2 ^ 63 ≤ JS.to_double (JS.to_double (p - 1) * L) →
  admin_links h pageParam limitParam searchParam s =
    (mkResponse 500 (Text "Internal Server Error"), s).
Proof.
  intros Htok Hp HL Hp1 HL1 Hbig. unfold admin_links.
  rewrite Htok, Hp, HL. cbn [negb].
  assert ((p <? 1) || (L <? 1) = false) as ->.
  { apply orb_false_iff. split; apply Z.ltb_ge; lia. }
  assert (Sql.int64 L && Sql.int64 (JS.to_double (JS.to_double (p - 1) * L)) = false) as Hno.
  { unfold Sql.int64. destruct Hbig as [H|H].
    - rewrite (proj2 (Z.ltb_ge L _) H). by rewrite andb_false_r.
    - rewrite (proj2 (Z.ltb_ge _ (2 ^ 63)) H). by rewrite !andb_false_r. }
  unfold Sql.limit_offset. by rewrite Hno.
Qed.

Lemma admin_links_beyond_int64_witness :
  admin_links (Some ("Bearer " +:+ Demo.token)) (Some "1") (Some "9223372036854775808") None
      (Demo.logged_in Demo.three) =
    (mkResponse 500 (Text "Internal Server Error"), Demo.logged_in Demo.three).
Proof.
  apply (admin_links_beyond_int64 (Some ("Bearer " +:+ Demo.token)) (Some "1")
           (Some "9223372036854775808") None (Demo.logged_in Demo.three)
           1 9223372036854775808).
  - reflexivity.
  - reflexivity.
  - vm_compute. reflexivity.
  - lia.
  - lia.
  - left. lia.
Defined.

(** C7, at the input where the code departs from it: a valid token and
    [page=99999999999999999999].  The page parses to a number of at least 1,
    so the guard lets it pass; the offset bound to [OFFSET ?] is then not a
    64-bit integer, the query throws, nothing catches it, and the request
    is answered 500 instead of with a page and its [totalPages]. *)
Theorem admin_links_huge_page_is_answered_500 :
  let s := Demo.logged_in Demo.three in
  let h := Some ("Bearer " +:+ Demo.token) in
  validateToken (validTokens s) h = true ∧
  JS.parseInt "99999999999999999999" = Some 100000000000000000000 ∧
  admin_links h (Some "99999999999999999999") None None s =
    (mkResponse 500 (Text "Internal Server Error"), s) ∧
  admin_links_open (Some "99999999999999999999") None s =
    (mkResponse 500 (Text "Internal Server Error"), s).
Proof. cbv zeta. repeat split; vm_compute; reflexivity. Qed.

(** X22: paging in range.  With a valid token, paging numbers [p] and [L]
    that are safe integers together with the offset [(p - 1) * L], and a
    table whose counters fit, the endpoint answers 200, reports
    [totalPages = ceil(T / L)] for the [T] records left by the search filter,
    and returns the records ordered by creation time, latest first, without
    the first [(p - 1) * L] of them and cut after [L] records. *)
Theorem admin_links_pagination (h pageParam limitParam searchParam : option string)
    (s : Server) (p L : Z) :
  validateToken (validTokens s) h = true →
  JS.parseInt (JS.or_else pageParam "1") = Some p →
  JS.parseInt (JS.or_else limitParam "50") = Some L →
  safe_paging p L → clicks_fit (db s) →
  let rows := searched searchParam (db s) in
  let T := Z.of_nat (length rows) in
  ∃ sorted pages stats,
    let links := take (Z.to_nat L) (drop (Z.to_nat ((p - 1) * L)) sorted) in
    admin_links h pageParam limitParam searchParam s =
      (mkResponse 200
         (LinkPage (select_columns <$> links) (mkPagination p L T pages) stats), s) ∧
    sorted ≡ₚ rows ∧
    StronglySorted (λ a b, (created_at b ≤ created_at a)%string) sorted ∧
    (pages - 1) * L < T ≤ pages * L ∧
    Z.of_nat (length links) ≤ L.
Proof.
  intros Htok Hp HL Hsafe Hfit rows T.
  exists (Sql.order_by_created_desc rows),
         (JS.Math_ceil (inject_Z T / inject_Z L)),
         (mkStats T (foldr Z.add 0 (clicks <$> db s))).
  cbv zeta. split; [by apply admin_links_page|].
  split; [apply order_by_created_desc_perm|].
  split; [apply order_by_created_desc_sorted|].
  destruct Hsafe as (_ & HL1 & _).
  split; [by apply Math_ceil_quotient|].
  rewrite length_take. lia.
Qed.

Lemma safe_paging_2_2 : safe_paging 2 2.
Proof. unfold safe_paging, safe_integer. lia. Defined.

Lemma clicks_fit_three : clicks_fit Demo.three.
Proof.
  split; [repeat constructor; cbn; lia|].
  unfold safe_integer. cbn. lia.
Defined.

Lemma admin_links_pagination_witness :
  ∃ sorted pages stats,
    let links := take (Z.to_nat 2) (drop (Z.to_nat ((2 - 1) * 2)) sorted) in
    admin_links (Some ("Bearer " +:+ Demo.token)) (Some "2") (Some "2") (Some "example")
        (Demo.logged_in Demo.three) =
      (mkResponse 200
         (LinkPage (select_columns <$> links) (mkPagination 2 2 3 pages) stats),
       Demo.logged_in Demo.three) ∧
    sorted ≡ₚ Demo.three ∧
    StronglySorted (λ a b, (created_at b ≤ created_at a)%string) sorted ∧
    (pages - 1) * 2 < 3 ≤ pages * 2 ∧
    Z.of_nat (length links) ≤ 2.
Proof.
  apply (admin_links_pagination (Some ("Bearer " +:+ Demo.token)) (Some "2") (Some "2")
           (Some "example") (Demo.logged_in Demo.three) 2 2).
  - reflexivity.
  - reflexivity.
  - reflexivity.
  - apply safe_paging_2_2.
  - apply clicks_fit_three.
Defined.

Example admin_links_second_page :
  (admin_links (Some ("Bearer " +:+ Demo.token)) (Some "2") (Some "2") None
     (Demo.logged_in Demo.three)).1 =
  json (LinkPage
          [Json.mkLink "promo" "https://example.com/a" "2024-01-01 10:00:00" 4]
          (mkPagination 2 2 3 2) (mkStats 3 11)).
Proof. vm_compute. reflexivity. Qed.

Example admin_links_search :
  (admin_links (Some ("Bearer " +:+ Demo.token)) None None (Some ".ORG")
     (Demo.logged_in Demo.three)).1 =
  json (LinkPage
          [Json.mkLink "my_slug" "https://example.org/c" "2024-01-03 10:00:00" 7]
          (mkPagination 1 50 1 1) (mkStats 1 11)).
Proof. vm_compute. reflexivity. Qed.

(** A limit between [2^53] and [2^63] is read as the nearest double and
    answered 200. *)
Example admin_links_rounded_limit :
  (admin_links (Some ("Bearer " +:+ Demo.token)) None (Some "9007199254740993") None
     (Demo.logged_in Demo.three)).1 =
  json (LinkPage
          (select_columns <$> Sql.order_by_created_desc Demo.three)
          (mkPagination 1 9007199254740992 3 1) (mkStats 3 11)).
Proof. vm_compute. reflexivity. Qed.

(** When the INTEGER sum of the clicks leaves 64 bits, [SUM] throws and the
    request is answered 500. *)
Example admin_links_sum_overflow :
  (admin_links (Some ("Bearer " +:+ Demo.token)) None None None
     (Demo.logged_in DemoMore.heavy)).1 = mkResponse 500 (Text "Internal Server Error").
Proof. vm_compute. reflexivity. Qed.

(** X19: the variant of the endpoint without a token pages in the same
    way: for paging numbers in range it answers 200, [totalPages] is
    [ceil(T / L)] for the [T] rows of the table, and the page holds at most
    [L] records, the latest first, after the first [(p - 1) * L]. *)
Lemma admin_links_open_pagination (pageParam limitParam : option string)
    (s : Server) (p L : Z) :
  JS.parseInt (JS.or_else pageParam "1") = Some p →
  JS.parseInt (JS.or_else limitParam "20") = Some L →
  safe_paging p L →
  let T := Z.of_nat (length (db s)) in
  ∃ sorted pages,
    let links := take (Z.to_nat L) (drop (Z.to_nat ((p - 1) * L)) sorted) in
    admin_links_open pageParam limitParam s =
      (mkResponse 200 (LinkList (select_columns <$> links) (mkPagination p L T pages)), s) ∧
    sorted ≡ₚ db s ∧
    StronglySorted (λ a b, (created_at b ≤ created_at a)%string) sorted ∧
    (pages - 1) * L < T ≤ pages * L ∧
    Z.of_nat (length links) ≤ L.
Proof.
  intros Hp HL Hsafe T.
  exists (Sql.order_by_created_desc (db s)), (JS.Math_ceil (inject_Z T / inject_Z L)).
  destruct (safe_paging_offset p L Hsafe) as (Hoff & HLr & Hoffr).
  destruct Hsafe as (Hp1 & HL1 & _).
  cbv zeta. split.
  - unfold admin_links_open. rewrite Hp, HL.
    assert ((p <? 1) || (L <? 1) = false) as ->.
    { apply orb_false_iff. split; apply Z.ltb_ge; lia. }
    by rewrite Hoff, limit_offset_in_range by done.
  - split; [apply order_by_created_desc_perm|].
    split; [apply order_by_created_desc_sorted|].
    split; [by apply Math_ceil_quotient|].
    rewrite length_take. lia.
Qed.

(** ** Pagination parameters *)

Lemma parse_digits_stop (rest : string) (acc : option Z) :
  starts_with_digit rest = false → JS.parse_digits rest acc = acc.
Proof. destruct rest as [|c rest]; simpl; [done|]. by intros ->. Qed.

(** Reading a run of digits multiplies what was read before by the weight of
    the run and adds the number the run denotes. *)
Lemma parse_digits_run (ds rest : string) (acc : option Z) :
  all_digits ds → ds ≠ "" → starts_with_digit rest = false →
  JS.parse_digits (ds +:+ rest) acc =
    Some (default 0 acc * 10 ^ Z.of_nat (String.length ds) + decimal_value ds).
Proof.
  revert acc. induction ds as [|c ds IH]; intros acc Hall Hne Hrest; [done|].
  unfold all_digits in Hall. cbn [String.list_ascii_of_string] in Hall.
  apply Forall_cons in Hall as [Hc Hall].
  change (String c ds +:+ rest) with (String c (ds +:+ rest)).
  simpl JS.parse_digits. rewrite Hc.
  destruct ds as [|d ds].
  - change ("" +:+ rest) with rest. rewrite (parse_digits_stop rest _ Hrest).
    f_equal. cbn [default String.length decimal_value].
    change (Z.of_nat 1) with 1. change (Z.of_nat 0) with 0. unfold id. ring.
  - rewrite (IH _ Hall); [|done|done]. f_equal.
    remember (String d ds) as ds' eqn:E.
    cbn [default decimal_value String.length].
    rewrite Nat2Z.inj_succ, Z.pow_succ_r by lia. unfold id. ring.
Qed.

Lemma digit_starts_number (c : ascii) (r : string) :
  JS.is_digit c = true →
  JS.trimStart (String c r) = String c r ∧ c ≠ "-"%char ∧ c ≠ "+"%char.
Proof.
  intros Hc.
  assert (H : JS.is_space c = false ∧
              (∀ b, JS.is_space2 c b = false) ∧ (∀ b d, JS.is_space3 c b d = false) ∧
              c ≠ "-"%char ∧ c ≠ "+"%char).
  { destruct c as [[] [] [] [] [] [] [] []]; vm_compute in Hc; try discriminate Hc.
    all: repeat split; try discriminate; intros; reflexivity. }
  destruct H as (H1 & H2 & H3 & Hm & Hp). split; [|done].
  cbn [JS.trimStart]. rewrite H1. destruct r as [|b r]; [done|]. rewrite H2.
  destruct r as [|d r]; [done|]. by rewrite H3.
Qed.

(** [parseInt] on a string that begins with digits gives the double of the
    number its first run of digits denotes and ignores what follows the
    run. *)
Lemma parseInt_leading_digits (ds rest : string) :
  ds ≠ "" → all_digits ds → starts_with_digit rest = false →
  JS.parseInt (ds +:+ rest) = Some (JS.to_double (decimal_value ds)).
Proof.
  intros Hne Hall Hrest. destruct ds as [|c ds]; [done|].
  assert (Hc : JS.is_digit c = true).
  { unfold all_digits in Hall. cbn [String.list_ascii_of_string] in Hall.
    by apply Forall_cons in Hall as [Hc _]. }
  change (String c ds +:+ rest) with (String c (ds +:+ rest)).
  destruct (digit_starts_number c (ds +:+ rest) Hc) as (Htrim & Hm & Hp).
  unfold JS.parseInt. rewrite Htrim.
  assert (Hparse : JS.parse_digits (String c (ds +:+ rest)) None =
                   Some (decimal_value (String c ds))).
  { change (String c (ds +:+ rest)) with (String c ds +:+ rest).
    by rewrite (parse_digits_run (String c ds) rest None Hall Hne Hrest). }
  destruct (decide (c = "-"%char)) as [->|_]; [done|].
  destruct (decide (c = "+"%char)) as [->|_]; [done|].
  transitivity (JS.to_double <$> JS.parse_digits (String c (ds +:+ rest)) None).
  - destruct c as [[] [] [] [] [] [] [] []]; done.
  - by rewrite Hparse.
Qed.

Lemma parseInt_leading_safe_digits (ds rest : string) :
  ds ≠ "" → all_digits ds → starts_with_digit rest = false →
  safe_integer (decimal_value ds) →
  JS.parseInt (ds +:+ rest) = Some (decimal_value ds).
Proof.
  intros Hne Hall Hrest Hsafe. rewrite parseInt_leading_digits by done.
  unfold safe_integer in Hsafe. by rewrite to_double_safe by lia.
Qed.

Lemma admin_links_status_400 (h pageParam limitParam searchParam : option string)
    (s : Server) :
  validateToken (validTokens s) h = true →
  status (admin_links h pageParam limitParam searchParam s).1 = 400 ↔
  rejected (JS.parseInt (JS.or_else pageParam "1")) ∨
  rejected (JS.parseInt (JS.or_else limitParam "50")).
Proof.
  intros Htok. unfold admin_links. rewrite Htok. cbn [negb].
  destruct (JS.parseInt (JS.or_else pageParam "1")) as [p|]; cbn [rejected];
    [|split; [by left | done]].
  destruct (JS.parseInt (JS.or_else limitParam "50")) as [L|]; cbn [rejected];
    [|split; [by right | done]].
  destruct (p <? 1) eqn:Hp; [apply Z.ltb_lt in Hp | apply Z.ltb_ge in Hp];
    destruct (L <? 1) eqn:HL; [apply Z.ltb_lt in HL | apply Z.ltb_ge in HL
                              |apply Z.ltb_lt in HL | apply Z.ltb_ge in HL];
    cbn [orb]; try (split; [by auto | done]).
  split; [|intros [?|?]; lia].
  repeat case_match; cbn; discriminate.
Qed.

(** C9, at the input where the code departs from it: a valid token and
    [page=99999999999999999999abc], which begins with a run of digits
    denoting an integer of at least 1 and is not a well-formed integer.
    [parseInt] reads the run (as the double 1e20) and the request is not
    answered 400, as the claim says; but the offset bound to [OFFSET ?] is
    then not a 64-bit integer, the query throws, and the request is answered
    500 instead of with the 200 page computed from the number. *)
Theorem admin_links_huge_leading_integer_is_answered_500 :
  let s := Demo.logged_in Demo.three in
  let h := Some ("Bearer " +:+ Demo.token) in
  validateToken (validTokens s) h = true ∧
  all_digits "99999999999999999999" ∧
  starts_with_digit "abc" = false ∧
  1 ≤ decimal_value "99999999999999999999" ∧
  JS.parseInt ("99999999999999999999" +:+ "abc") = Some 100000000000000000000 ∧
  admin_links h (Some ("99999999999999999999" +:+ "abc")) (Some "3abc") None s =
    (mkResponse 500 (Text "Internal Server Error"), s).
Proof.
  cbv zeta. split; [reflexivity|]. split; [repeat constructor|].
  repeat split; vm_compute; (reflexivity || discriminate).
Qed.

(** X23: paging parameters that begin with digits.  With a valid token, the
    pagination guard answers 400 exactly when [page] or [limit] parses to
    [NaN] or to a number below 1.  A parameter that begins with a run of
    digits is read as the double of the number the run denotes, whatever
    follows the run ([2.9] is page 2, [3abc] is limit 3); when these numbers
    are at least 1 and in range, the request is answered 200 with the page
    computed from them. *)
Theorem admin_links_reads_leading_integer
    (h pageParam limitParam searchParam : option string) (s : Server) :
  validateToken (validTokens s) h = true →
  let r := (admin_links h pageParam limitParam searchParam s).1 in
  (status r = 400 ↔
     rejected (JS.parseInt (JS.or_else pageParam "1")) ∨
     rejected (JS.parseInt (JS.or_else limitParam "50"))) ∧
  (∀ ds rest, ds ≠ "" → all_digits ds → starts_with_digit rest = false →
     JS.parseInt (ds +:+ rest) = Some (JS.to_double (decimal_value ds))) ∧
  (∀ ds rest ds' rest',
     JS.or_else pageParam "1" = ds +:+ rest →
     JS.or_else limitParam "50" = ds' +:+ rest' →
     ds ≠ "" → all_digits ds → starts_with_digit rest = false →
     ds' ≠ "" → all_digits ds' → starts_with_digit rest' = false →
     safe_paging (decimal_value ds) (decimal_value ds') → clicks_fit (db s) →
     let p := decimal_value ds in
     let L := decimal_value ds' in
     let rows := searched searchParam (db s) in
     ∃ sorted pages stats,
       r = mkResponse 200
             (LinkPage
                (select_columns <$> take (Z.to_nat L) (drop (Z.to_nat ((p - 1) * L)) sorted))
                (mkPagination p L (Z.of_nat (length rows)) pages) stats) ∧
       sorted ≡ₚ rows ∧
       StronglySorted (λ a b, (created_at b ≤ created_at a)%string) sorted ∧
       (pages - 1) * L < Z.of_nat (length rows) ≤ pages * L).
Proof.
  intros Htok r. split; [by apply admin_links_status_400|].
  split; [intros ds rest; apply parseInt_leading_digits|].
  intros ds rest ds' rest' Hpage Hlimit Hne Hall Hrest Hne' Hall' Hrest' Hsafe Hfit p L rows.
  subst r.
  pose proof Hsafe as (_ & HL1 & Hps & HLs & _).
  rewrite (admin_links_page h pageParam limitParam searchParam s p L); try done.
  - eexists (Sql.order_by_created_desc rows), _, _. split; [reflexivity|].
    split; [apply order_by_created_desc_perm|].
    split; [apply order_by_created_desc_sorted|].
    by apply Math_ceil_quotient.
  - rewrite Hpage. by apply parseInt_leading_safe_digits.
  - rewrite Hlimit. by apply parseInt_leading_safe_digits.
Qed.

Lemma admin_links_reads_leading_integer_witness :
  let r := (admin_links (Some ("Bearer " +:+ Demo.token)) (Some "2.9") (Some "2abc") None
              (Demo.logged_in Demo.three)).1 in
  ∃ sorted pages stats,
    r = mkResponse 200
          (LinkPage
             (select_columns <$> take (Z.to_nat 2) (drop (Z.to_nat ((2 - 1) * 2)) sorted))
             (mkPagination 2 2 3 pages) stats) ∧
    sorted ≡ₚ Demo.three ∧
    StronglySorted (λ a b, (created_at b ≤ created_at a)%string) sorted ∧
    (pages - 1) * 2 < 3 ≤ pages * 2.
Proof.
  pose proof (proj2 (proj2 (admin_links_reads_leading_integer
    (Some ("Bearer " +:+ Demo.token)) (Some "2.9") (Some "2abc") None
    (Demo.logged_in Demo.three) eq_refl)) "2" ".9" "2" "abc") as H.
  cbv zeta in H. apply H.
  - reflexivity.
  - reflexivity.
  - discriminate.
  - repeat constructor.
  - reflexivity.
  - discriminate.
  - repeat constructor.
  - reflexivity.
  - apply safe_paging_2_2.
  - apply clicks_fit_three.
Defined.

Example admin_links_bad_page :
  (admin_links (Some ("Bearer " +:+ Demo.token)) (Some "abc") None None
     (Demo.logged_in Demo.three)).1 = json_error "Invalid pagination parameters" 400.
Proof. reflexivity. Qed.

Example admin_links_zero_limit :
  (admin_links (Some ("Bearer " +:+ Demo.token)) None (Some "0") None
     (Demo.logged_in Demo.three)).1 = json_error "Invalid pagination parameters" 400.
Proof. reflexivity. Qed.

(** White space before the digits is skipped, also U+00A0 (the bytes C2
    A0). *)
Example parseInt_nbsp :
  JS.parseInt (String (Ascii.ascii_of_N 194) (String (Ascii.ascii_of_N 160) "5")) = Some 5.
Proof. reflexivity. Qed.

(** * Further properties of the program *)

(** ** Generated codes and tokens *)

Lemma string_length_app (a b : string) :
  String.length (a +:+ b) = (String.length a + String.length b)%nat.
Proof. induction a as [|c a IH]; simpl; [done | by rewrite IH]. Qed.

Lemma charAt_length_in (s : string) (i : nat) :
  (i < String.length s)%nat → String.length (JS.charAt s i) = 1%nat.
Proof.
  unfold JS.charAt. revert i. induction s as [|c s IH]; intros i Hi; simpl in *; [lia|].
  destruct i as [|i]; [done|]. apply IH. lia.
Qed.

Lemma charAt_length_le (s : string) (i : nat) : (String.length (JS.charAt s i) ≤ 1)%nat.
Proof. unfold JS.charAt. destruct (String.get i s); simpl; lia. Qed.

Lemma random_chars_length (rand : nat → nat) (n k : nat) (result : string) :
  (∀ i, (k ≤ i < k + n)%nat → (rand i < String.length chars)%nat) →
  String.length (random_chars rand k n result).1 = (String.length result + n)%nat.
Proof.
  revert k result. induction n as [|n IH]; intros k result Hin; cbn [random_chars].
  - simpl. lia.
  - rewrite IH by (intros i Hi; apply Hin; lia).
    rewrite string_length_app, charAt_length_in by (apply Hin; lia). lia.
Qed.

Lemma random_chars_length_le (rand : nat → nat) (n k : nat) (result : string) :
  (String.length (random_chars rand k n result).1 ≤ String.length result + n)%nat.
Proof.
  revert k result. induction n as [|n IH]; intros k result; cbn [random_chars].
  - simpl. lia.
  - etrans; [apply IH|]. rewrite string_length_app.
    pose proof (charAt_length_le chars (rand k)). lia.
Qed.

Lemma over_chars_slug_class (t : string) :
  over_chars t → Forall (λ c, slug_class c = true) (String.list_ascii_of_string t).
Proof.
  unfold over_chars. intros Ht. eapply Forall_impl; [exact Ht|]. intros c Hc.
  assert (Hall : Forall (λ c, slug_class c = true) (String.list_ascii_of_string chars)).
  { apply (bool_decide_unpack _). vm_compute. exact I. }
  by apply (proj1 (Forall_forall _ _) Hall).
Qed.

Lemma over_chars_valid_slug (t : string) :
  over_chars t → (1 ≤ String.length t ≤ 50)%nat → isValidSlug t = true.
Proof.
  intros Ht [Hlo Hhi]. apply isValidSlug_spec. split; [by destruct t; simpl in *; [lia|]|].
  split; [done|]. apply over_chars_slug_class in Ht.
  eapply Forall_impl; [exact Ht|]. intros c Hc. by apply slug_class_character.
Qed.

Lemma generated_code_length (rand : nat → nat) (length k : nat) :
  in_range rand → String.length (generateShortCode length rand k).1 = length.
Proof.
  intros Hr. unfold generateShortCode. rewrite random_chars_length; [done|].
  intros i _. apply Hr.
Qed.

(** X1: with draws in the range of [Math.floor(Math.random() * 62)],
    [generateShortCode(length)] returns exactly [length] characters, all of
    them letters or digits of [chars], and uses exactly [length] draws;
    so a code of 1 to 50 characters, the default 6 among them, passes the
    slug validator. *)
Theorem generateShortCode_shape (length : nat) (rand : nat → nat) (k : nat) :
  in_range rand →
  let code := (generateShortCode length rand k).1 in
  String.length code = length ∧
  over_chars code ∧
  (generateShortCode length rand k).2 = (k + length)%nat ∧
  ((1 ≤ length ≤ 50)%nat → isValidSlug code = true).
Proof.
  intros Hr code. subst code. unfold generateShortCode.
  assert (Hlen : String.length (random_chars rand k length "").1 = length).
  { rewrite random_chars_length; [done|]. intros i _. apply Hr. }
  assert (Hov : over_chars (random_chars rand k length "").1).
  { apply random_chars_over_chars. constructor. }
  split; [done|]. split; [done|]. split; [apply random_chars_next|].
  intros Hb. apply over_chars_valid_slug; [done|]. by rewrite Hlen.
Qed.

Lemma in_range_abc : in_range DemoMore.rand_abc.
Proof.
  intros k. unfold DemoMore.rand_abc.
  pose proof (Nat.mod_upper_bound k 6). simpl. lia.
Defined.

Lemma generateShortCode_shape_witness :
  let code := (generateShortCode 6 DemoMore.rand_abc 0).1 in
  String.length code = 6%nat ∧
  over_chars code ∧
  (generateShortCode 6 DemoMore.rand_abc 0).2 = (0 + 6)%nat ∧
  ((1 ≤ 6 ≤ 50)%nat → isValidSlug code = true).
Proof. apply (generateShortCode_shape 6 DemoMore.rand_abc 0). apply in_range_abc. Defined.

Example generateShortCode_abc : (generateShortCode 6 DemoMore.rand_abc 0).1 = "abcdef".
Proof. reflexivity. Qed.

(** X2: whatever the draws are, a generated code or token never holds a
    character outside [chars] and is never longer than asked for: a draw out
    of range adds no character ([charAt] gives the empty string). *)
Theorem generated_text_bounds (rand : nat → nat) (k length : nat) :
  over_chars (generateShortCode length rand k).1 ∧
  (String.length (generateShortCode length rand k).1 ≤ length)%nat ∧
  over_chars (generateToken rand k).1 ∧
  (String.length (generateToken rand k).1 ≤ 32)%nat.
Proof.
  unfold generateShortCode, generateToken.
  split; [apply random_chars_over_chars; constructor|].
  split; [apply (random_chars_length_le rand length k "")|].
  split; [apply random_chars_over_chars; constructor|].
  apply (random_chars_length_le rand 32 k "").
Qed.

(** X3: with draws in range, [generateToken] returns exactly 32 letters or
    digits. *)
Theorem generateToken_shape (rand : nat → nat) (k : nat) :
  in_range rand →
  String.length (generateToken rand k).1 = 32%nat ∧
  over_chars (generateToken rand k).1.
Proof.
  intros Hr. unfold generateToken. split.
  - rewrite random_chars_length; [done|]. intros i _. apply Hr.
  - apply random_chars_over_chars. constructor.
Qed.

Lemma generateToken_shape_witness :
  String.length (generateToken DemoMore.rand_abc 0).1 = 32%nat ∧
  over_chars (generateToken DemoMore.rand_abc 0).1.
Proof. apply (generateToken_shape DemoMore.rand_abc 0). apply in_range_abc. Defined.

(** ** Logging in *)

(** X4: a login with the configured password answers 200 with a fresh
    token, adds it to the valid tokens without touching the table or the
    tokens already valid, and from then on [Bearer ] followed by that token
    is accepted: neither admin endpoint answers 401 to it. *)
Theorem login_grants_access URL_parses env_ADMIN_PASSWORD env_BASE_URL
    (rand : nat → nat) (b : AuthRequest) (s : Server) :
  password b = Some (ADMIN_PASSWORD env_ADMIN_PASSWORD) →
  let token := (generateToken rand 0).1 in
  let s' := (admin_auth env_ADMIN_PASSWORD rand (Some b) s).2 in
  (admin_auth env_ADMIN_PASSWORD rand (Some b) s).1 = json (Token token) ∧
  db s' = db s ∧
  validTokens s' = {[ token ]} ∪ validTokens s ∧
  (∀ h, validateToken (validTokens s) h = true → validateToken (validTokens s') h = true) ∧
  (∀ now body pageParam limitParam searchParam,
     status (admin_create URL_parses env_BASE_URL now (Some ("Bearer " +:+ token)) body s').1 ≠ 401 ∧
     status (admin_links (Some ("Bearer " +:+ token)) pageParam limitParam searchParam s').1 ≠ 401).
Proof.
  intros Hpw token s'. subst s'. unfold admin_auth.
  rewrite (bool_decide_eq_true_2 _ Hpw). fold token. cbn [fst snd add_token db validTokens].
  split; [done|]. split; [done|]. split; [done|]. split.
  - intros h Hh. apply validateToken_carries in Hh as (t & -> & Hin).
    apply validateToken_carries. exists t. split; [done|].
    apply elem_of_union. by right.
  - intros now body pageParam limitParam searchParam.
    assert (Hok : validateToken ({[token]} ∪ validTokens s) (Some ("Bearer " +:+ token)) = true).
    { apply validateToken_carries. exists token. split; [done|].
      apply elem_of_union. left. by apply elem_of_singleton. }
    split.
    + rewrite admin_create_status_401. unfold add_token. cbn [validTokens]. by rewrite Hok.
    + rewrite admin_links_status_401. unfold add_token. cbn [validTokens]. by rewrite Hok.
Qed.

Lemma login_grants_access_witness :
  let token := (generateToken Demo.rand_zero 0).1 in
  let s' := (admin_auth None Demo.rand_zero (Some {| password := Some "doppy" |})
               (start Demo.three)).2 in
  (admin_auth None Demo.rand_zero (Some {| password := Some "doppy" |})
     (start Demo.three)).1 = json (Token token) ∧
  db s' = db (start Demo.three) ∧
  validTokens s' = {[ token ]} ∪ validTokens (start Demo.three) ∧
  (∀ h, validateToken (validTokens (start Demo.three)) h = true →
        validateToken (validTokens s') h = true) ∧
  (∀ now body pageParam limitParam searchParam,
     status (admin_create Demo.URL_parses None now (Some ("Bearer " +:+ token)) body s').1 ≠ 401 ∧
     status (admin_links (Some ("Bearer " +:+ token)) pageParam limitParam searchParam s').1 ≠ 401).
Proof.
  apply (login_grants_access Demo.URL_parses None None Demo.rand_zero
           {| password := Some "doppy" |} (start Demo.three)).
  reflexivity.
Defined.

(** X5: a login attempt that does not give the configured password changes
    nothing: it is answered 401 when the body is JSON (also when the
    password is missing) and 400 when it is not, and no token is added. *)
Theorem login_failure_changes_nothing env_ADMIN_PASSWORD
    (rand : nat → nat) (body : option AuthRequest) (s : Server) :
  (∀ b, body = Some b → password b ≠ Some (ADMIN_PASSWORD env_ADMIN_PASSWORD)) →
  admin_auth env_ADMIN_PASSWORD rand body s =
    (match body with
     | Some _ => json_error "Invalid password" 401
     | None => json_error "Invalid request" 400
     end, s).
Proof.
  intros Hbad. unfold admin_auth. destruct body as [b|]; [|done].
  by rewrite (bool_decide_eq_false_2 _ (Hbad b eq_refl)).
Qed.

Lemma login_failure_changes_nothing_witness :
  admin_auth (Some "s3cret") Demo.rand_zero (Some {| password := Some "doppy" |})
    (start Demo.three)
  = (json_error "Invalid password" 401, start Demo.three).
Proof.
  apply (login_failure_changes_nothing (Some "s3cret") Demo.rand_zero
           (Some {| password := Some "doppy" |}) (start Demo.three)).
  intros b [= <-]. simpl. discriminate.
Defined.

(** ** Creating links and using them *)

Lemma select_app (links new : list Row) (code : string) :
  Sql.select_by_code (links ++ new) code =
  match Sql.select_by_code links code with
  | Some r => Some r
  | None => Sql.select_by_code new code
  end.
Proof.
  unfold Sql.select_by_code. induction links as [|r links IH]; [done|].
  simpl. by destruct (Sql.code_is code r).
Qed.

Lemma select_inserted (links : list Row) (n : Z) (code url now : string) (k : Z) :
  ¬ stored links code →
  Sql.select_by_code (links ++ [mkRow n code url now k]) code = Some (mkRow n code url now k).
Proof.
  intros Hfresh. apply select_by_code_None in Hfresh.
  rewrite select_app, Hfresh. unfold Sql.select_by_code, Sql.code_is. simpl.
  by rewrite String.eqb_refl.
Qed.

Lemma select_kept (links new : list Row) (code : string) :
  stored links code →
  Sql.select_by_code (links ++ new) code = Sql.select_by_code links code.
Proof.
  intros Hst. rewrite select_app.
  destruct (Sql.select_by_code links code) eqn:E; [done|].
  apply select_by_code_None in E. contradiction.
Qed.

Lemma get_stats_stored (code : string) (l : Row) (s : Server) :
  code ≠ "" → Sql.select_by_code (db s) code = Some l →
  get_stats code s = (json (LinkRecord (select_columns l)), s).
Proof. intros Hne Hsel. unfold get_stats. rewrite Hsel. by destruct code. Qed.

(** What a stored link answers: the redirect, the statistics before it and
    the statistics after it. *)
Lemma fresh_link_works (s : Server) (n : Z) (c u now : string) :
  c ≠ "" → ¬ stored (db s) c → header_text u →
  let s' := set_db s (db s ++ [mkRow n c u now 0]) in
  get_stats c s' = (json (LinkRecord (Json.mkLink c u now 0)), s') ∧
  (get_code c s').1 =
    mkResponse 302 (Redirect (if JS.beyond_latin1 u then JS.encodeURI u else u)) ∧
  get_stats c (get_code c s').2 =
    (json (LinkRecord (Json.mkLink c u now 1)), (get_code c s').2) ∧
  (∀ c', stored (db s) c' → Sql.select_by_code (db s') c' = Sql.select_by_code (db s) c').
Proof.
  intros Hne Hfresh Htext s'.
  assert (Hsel : Sql.select_by_code (db s') c = Some (mkRow n c u now 0)).
  { unfold s'. cbn [db set_db]. by apply select_inserted. }
  split; [by rewrite (get_stats_stored c _ s' Hne Hsel)|].
  rewrite (get_code_stored c _ s' Hne Hsel). cbn [fst snd].
  split; [by apply redirect_302|]. split.
  - erewrite get_stats_stored; [| done |].
    2: { cbn [db set_db]. rewrite select_increment_same, Hsel. reflexivity. }
    done.
  - intros c' Hc'. unfold s'. cbn [db set_db]. by apply select_kept.
Qed.

(** X6: what [/shorten] rejects.  A body that is not JSON is answered 400;
    so is a body whose [url] is missing or empty, and a body whose [url] is
    a string that the URL parser rejects, each with its own message.  A
    body whose [url] is a string that the parser accepts is never answered
    400.  And a request that is not answered 200 leaves the state as it
    was. *)
Theorem shorten_rejects_exactly_bad_urls URL_parses env_BASE_URL
    (rand : nat → nat) (now : string) (body : option ShortenRequest) (s : Server) :
  let r := shorten URL_parses env_BASE_URL rand now body s in
  (body = None → r = (mkResponse 400 (Error "Invalid JSON or server error"), s)) ∧
  (∀ b, body = Some b → JS.truthy (url b) = None →
     r = (mkResponse 400 (Error "URL is required"), s)) ∧
  (∀ b u, body = Some b → url b = Some u → u ≠ "" → URL_parses u = false →
     r = (mkResponse 400 (Error "Invalid URL format"), s)) ∧
  (∀ b u, body = Some b → url b = Some u → u ≠ "" → URL_parses u = true →
     status r.1 = 200 ∨ status r.1 = 500) ∧
  (status r.1 ≠ 200 → r.2 = s).
Proof.
  cbv zeta.
  assert (Htruthy : ∀ (b : ShortenRequest) u, url b = Some u → u ≠ "" →
                      JS.truthy (url b) = Some u).
  { intros b u -> Hu. by destruct u. }
  split; [by intros ->|]. split; [|split; [|split]].
  - intros b -> Hu. unfold shorten. by rewrite Hu.
  - intros b u -> Hu Hne Hbad. unfold shorten, isValidUrl.
    by rewrite (Htruthy b u Hu Hne), Hbad.
  - intros b u -> Hu Hne Hvalid.
    destruct (shorten_valid_url URL_parses env_BASE_URL rand now u b s
                (Htruthy b u Hu Hne) Hvalid) as (_ & _ & H200).
    destruct (decide (status (shorten URL_parses env_BASE_URL rand now (Some b) s).1 = 500))
      as [E|E]; [by right|].
    destruct (H200 E) as (i & _ & _ & _ & ->). by left.
  - destruct body as [b|]; [|done].
    destruct (JS.truthy (url b)) as [u|] eqn:Hu; [|unfold shorten; by rewrite Hu].
    destruct (URL_parses u) eqn:Hvalid;
      [|unfold shorten, isValidUrl; by rewrite Hu, Hvalid].
    destruct (shorten_valid_url URL_parses env_BASE_URL rand now u b s Hu Hvalid)
      as (_ & Hsame & H200).
    destruct (decide (status (shorten URL_parses env_BASE_URL rand now (Some b) s).1 = 500))
      as [E|E]; [by intros _; apply Hsame|].
    destruct (H200 E) as (i & _ & _ & _ & ->). done.
Qed.

(** X7: a link made by [/shorten] works.  With draws in range and a valid
    URL that is a header text, a request answered 200 returns a code of six characters that was
    not stored before, with [short_url] the base URL, a slash and the code;
    the new row has no clicks; a redirect request for the code answers 302
    with the submitted URL as the [Location] (its percent-encoded text when
    it has a character above U+00FF), after which the statistics report one
    click; and every code stored before resolves as it did. *)
Theorem shorten_then_redirect URL_parses env_BASE_URL
    (rand : nat → nat) (now u : string) (b : ShortenRequest) (s : Server) :
  in_range rand →
  JS.truthy (url b) = Some u → URL_parses u = true → header_text u →
  status (shorten URL_parses env_BASE_URL rand now (Some b) s).1 = 200 →
  ∃ c s',
    shorten URL_parses env_BASE_URL rand now (Some b) s =
      (mkResponse 200 (Shortened (mkShortenResponse c (baseUrl env_BASE_URL +:+ "/" +:+ c) u)), s') ∧
    String.length c = 6%nat ∧
    ¬ stored (db s) c ∧
    validTokens s' = validTokens s ∧
    get_stats c s' = (mkResponse 200 (LinkRecord (Json.mkLink c u now 0)), s') ∧
    (get_code c s').1 =
      mkResponse 302 (Redirect (if JS.beyond_latin1 u then JS.encodeURI u else u)) ∧
    get_stats c (get_code c s').2 =
      (mkResponse 200 (LinkRecord (Json.mkLink c u now 1)), (get_code c s').2) ∧
    (∀ c', stored (db s) c' → Sql.select_by_code (db s') c' = Sql.select_by_code (db s) c').
Proof.
  intros Hr Hu Hvalid Htext H200.
  destruct (shorten_valid_url URL_parses env_BASE_URL rand now u b s Hu Hvalid)
    as (_ & _ & Hok).
  destruct Hok as (i & _ & Hfresh & _ & Heq); [by rewrite H200|].
  assert (Hlen : String.length (candidate rand i) = 6%nat).
  { unfold candidate. by apply (generated_code_length rand). }
  assert (Hne : candidate rand i ≠ "") by (intros E; rewrite E in Hlen; done).
  eexists _, _. split; [exact Heq|]. split; [done|]. split; [done|]. split; [done|].
  by apply fresh_link_works.
Qed.

Lemma shorten_rejects_exactly_bad_urls_witness :
  let body := Some {| url := Some "example.com" |} in
  let r := shorten Demo.URL_parses None Demo.rand_zero "2024-01-05 08:00:00" body
             (start Demo.three) in
  r = (mkResponse 400 (Error "Invalid URL format"), start Demo.three) ∧
  (status r.1 ≠ 200 → r.2 = start Demo.three).
Proof.
  destruct (shorten_rejects_exactly_bad_urls Demo.URL_parses None Demo.rand_zero
              "2024-01-05 08:00:00" (Some {| url := Some "example.com" |})
              (start Demo.three)) as (_ & _ & Hbad & _ & Hsame).
  split; [|exact Hsame].
  apply (Hbad {| url := Some "example.com" |} "example.com");
    [reflexivity | reflexivity | discriminate | reflexivity].
Defined.

Lemma shorten_then_redirect_witness :
  ∃ c s',
    shorten Demo.URL_parses None DemoMore.rand_abc "2024-01-05 08:00:00"
        (Some {| url := Some "https://example.com" |}) (start Demo.three) =
      (mkResponse 200 (Shortened (mkShortenResponse c (baseUrl None +:+ "/" +:+ c) "https://example.com")), s') ∧
    String.length c = 6%nat ∧
    ¬ stored (db (start Demo.three)) c ∧
    validTokens s' = validTokens (start Demo.three) ∧
    get_stats c s' =
      (mkResponse 200 (LinkRecord (Json.mkLink c "https://example.com" "2024-01-05 08:00:00" 0)), s') ∧
    (get_code c s').1 = mkResponse 302 (Redirect "https://example.com") ∧
    get_stats c (get_code c s').2 =
      (mkResponse 200 (LinkRecord (Json.mkLink c "https://example.com" "2024-01-05 08:00:00" 1)),
       (get_code c s').2) ∧
    (∀ c', stored (db (start Demo.three)) c' →
           Sql.select_by_code (db s') c' = Sql.select_by_code (db (start Demo.three)) c').
Proof.
  apply (shorten_then_redirect Demo.URL_parses None DemoMore.rand_abc
           "2024-01-05 08:00:00" "https://example.com"
           {| url := Some "https://example.com" |} (start Demo.three)).
  - apply in_range_abc.
  - reflexivity.
  - reflexivity.
  - closed_header_text.
  - reflexivity.
Defined.

Example shorten_scenario :
  (shorten Demo.URL_parses None DemoMore.rand_abc "2024-01-05 08:00:00"
     (Some {| url := Some "https://example.com" |}) (start Demo.three)).1 =
  json (Shortened (mkShortenResponse "abcdef" "http://localhost:3000/abcdef"
                     "https://example.com")).
Proof. reflexivity. Qed.

(** X8: a custom slug that is free is created.  With a valid token, a valid
    URL that is a header text and a slug that passes the validator and is not stored, the endpoint
    answers 200 with the slug as the code, appends one row for it with no
    clicks and leaves the tokens alone; the handler of [/:code] then answers
    a redirect request for the slug with 302 and the submitted URL as the
    [Location] (its percent-encoded text when it has a character above
    U+00FF), the statistics report one click afterwards, and every code
    stored before resolves as it did. *)
Theorem admin_create_then_redirect URL_parses env_BASE_URL (now u sl : string)
    (h : option string) (b : CustomSlugRequest) (s : Server) :
  validateToken (validTokens s) h = true →
  JS.truthy (cs_url b) = Some u → URL_parses u = true →
  slug b = Some sl → isValidSlug sl = true →
  ¬ stored (db s) sl → header_text u →
  let s' := set_db s (db s ++ [mkRow (Sql.next_rowid (db s)) sl u now 0]) in
  admin_create URL_parses env_BASE_URL now h (Some b) s =
    (mkResponse 200 (Shortened (mkShortenResponse sl (baseUrl env_BASE_URL +:+ "/" +:+ sl) u)), s') ∧
  get_stats sl s' = (mkResponse 200 (LinkRecord (Json.mkLink sl u now 0)), s') ∧
  (get_code sl s').1 =
    mkResponse 302 (Redirect (if JS.beyond_latin1 u then JS.encodeURI u else u)) ∧
  get_stats sl (get_code sl s').2 =
    (mkResponse 200 (LinkRecord (Json.mkLink sl u now 1)), (get_code sl s').2) ∧
  (∀ c', stored (db s) c' → Sql.select_by_code (db s') c' = Sql.select_by_code (db s) c').
Proof.
  intros Htok Hu Hvalid Hsl Hok Hfresh Htext s'. split.
  - rewrite (admin_create_authorized _ _ now u sl h b s Htok Hu Hvalid Hsl).
    rewrite Hok. cbn [negb]. apply select_by_code_None in Hfresh. by rewrite Hfresh.
  - apply fresh_link_works; [|done..]. intros ->. done.
Qed.

Lemma admin_create_then_redirect_witness :
  let s := Demo.logged_in Demo.three in
  let s' := set_db s (db s ++ [mkRow (Sql.next_rowid (db s)) "spring-sale"
                                 "https://example.com/sale" "2024-03-01 12:00:00" 0]) in
  admin_create Demo.URL_parses None "2024-03-01 12:00:00" (Some ("Bearer " +:+ Demo.token))
      (Some {| cs_url := Some "https://example.com/sale"; slug := Some "spring-sale" |}) s =
    (mkResponse 200 (Shortened (mkShortenResponse "spring-sale" (baseUrl None +:+ "/" +:+ "spring-sale")
                        "https://example.com/sale")), s') ∧
  get_stats "spring-sale" s' =
    (mkResponse 200 (LinkRecord (Json.mkLink "spring-sale" "https://example.com/sale"
                         "2024-03-01 12:00:00" 0)), s') ∧
  (get_code "spring-sale" s').1 = mkResponse 302 (Redirect "https://example.com/sale") ∧
  get_stats "spring-sale" (get_code "spring-sale" s').2 =
    (mkResponse 200 (LinkRecord (Json.mkLink "spring-sale" "https://example.com/sale"
                         "2024-03-01 12:00:00" 1)), (get_code "spring-sale" s').2) ∧
  (∀ c', stored (db s) c' → Sql.select_by_code (db s') c' = Sql.select_by_code (db s) c').
Proof.
  apply (admin_create_then_redirect Demo.URL_parses None "2024-03-01 12:00:00"
           "https://example.com/sale" "spring-sale").
  - reflexivity.
  - reflexivity.
  - reflexivity.
  - reflexivity.
  - reflexivity.
  - apply select_by_code_None. reflexivity.
  - closed_header_text.
Defined.

(** ** Statistics and the endpoints that only read *)

(** X9: the statistics endpoint reports the stored row of a code (its code,
    URL, creation time and clicks) without changing anything, and right
    after a redirect request for that code it reports one click more, as
    long as the counter is a safe integer. *)
Theorem stats_follow_redirect (c : string) (l : Row) (s : Server) :
  c ≠ "" →
  Sql.select_by_code (db s) c = Some l →
  0 ≤ clicks l → clicks l + 1 ≤ 2 ^ 53 - 1 →
  get_stats c s =
    (mkResponse 200
       (LinkRecord (Json.mkLink c (original_url l) (created_at l) (clicks l))), s) ∧
  get_stats c (get_code c s).2 =
    (mkResponse 200
       (LinkRecord (Json.mkLink c (original_url l) (created_at l) (clicks l + 1))),
     (get_code c s).2).
Proof.
  intros Hne Hsel Hlo Hhi.
  pose proof (select_by_code_Some _ _ _ Hsel) as [_ Hc].
  split.
  - rewrite (get_stats_stored c l s Hne Hsel). unfold select_columns.
    by rewrite Hc, to_double_safe by lia.
  - rewrite (get_code_stored c l s Hne Hsel). cbn [snd].
    erewrite get_stats_stored; [| done |].
    2: { cbn [db set_db]. rewrite select_increment_same, Hsel. reflexivity. }
    unfold select_columns. cbn [short_code original_url created_at clicks set_clicks].
    by rewrite Hc, add1_integer, to_double_safe by lia.
Qed.

Lemma stats_follow_redirect_witness :
  get_stats "promo" (start Demo.three) =
    (mkResponse 200
       (LinkRecord (Json.mkLink "promo" "https://example.com/a" "2024-01-01 10:00:00" 4)),
     start Demo.three) ∧
  get_stats "promo" (get_code "promo" (start Demo.three)).2 =
    (mkResponse 200
       (LinkRecord (Json.mkLink "promo" "https://example.com/a" "2024-01-01 10:00:00" (4 + 1))),
     (get_code "promo" (start Demo.three)).2).
Proof.
  apply (stats_follow_redirect "promo"
           (Demo.row 1 "promo" "https://example.com/a" "2024-01-01 10:00:00" 4)
           (start Demo.three)).
  - discriminate.
  - reflexivity.
  - cbn. lia.
  - cbn. lia.
Defined.

(** Beyond the safe integers the counter is read as the nearest double:
    the statistics of a row with [2^53 + 1] clicks report [2^53], and
    [2^53 + 2] after a redirect. *)
Example stats_rounded_clicks :
  let s := start DemoMore.busy in
  (get_stats "busy" s).1 =
    mkResponse 200
      (LinkRecord (Json.mkLink "busy" "https://example.com/b" "2024-02-01 10:00:00" (2 ^ 53))) ∧
  (get_stats "busy" (get_code "busy" s).2).1 =
    mkResponse 200
      (LinkRecord (Json.mkLink "busy" "https://example.com/b" "2024-02-01 10:00:00"
                     (2 ^ 53 + 2))).
Proof. cbv zeta. split; vm_compute; reflexivity. Qed.

(** X10: the statistics of a code that is not stored are answered 404, and
    an empty code 400; neither touches the state. *)
Theorem stats_unknown_code (c : string) (s : Server) :
  ¬ stored (db s) c →
  get_stats c s =
    (if String.eqb c "" then json_error "Short code is required" 400
     else json_error "Short link not found" 404, s).
Proof.
  intros Hc. apply select_by_code_None in Hc. unfold get_stats. rewrite Hc.
  by destruct c.
Qed.

Lemma stats_unknown_code_witness :
  get_stats "nosuch" (start Demo.three) =
    (json_error "Short link not found" 404, start Demo.three).
Proof.
  apply (stats_unknown_code "nosuch" (start Demo.three)).
  apply select_by_code_None. reflexivity.
Defined.

(** X11: the root, the admin page, the statistics and the admin list only
    read: whatever the request holds and whatever they answer, the table and
    the tokens are afterwards what they were.  The same holds for the admin
    list without tokens. *)
Theorem reading_endpoints_change_nothing
    URL_parses env_ADMIN_PASSWORD env_BASE_URL admin_html (e : Event) (s : Server) :
  reads_only (request e) →
  (handle URL_parses env_ADMIN_PASSWORD env_BASE_URL admin_html e s).2 = s ∧
  ∀ pageParam limitParam, (admin_links_open pageParam limitParam s).2 = s.
Proof.
  intros Hread. split.
  - unfold handle.
    destruct (request e) as [|bo| |bo|h bo|c|c|h pg lm sr]; try done.
    + unfold get_stats. by repeat case_match.
    + unfold admin_links. by repeat case_match.
  - intros pageParam limitParam. unfold admin_links_open. by repeat case_match.
Qed.

Lemma reading_endpoints_change_nothing_witness :
  (handle Demo.URL_parses None None ""
     (mkEvent (GetAdminLinks (Some ("Bearer " +:+ Demo.token)) (Some "1") (Some "2") (Some "a"))
        Demo.rand_zero "")
     (Demo.logged_in Demo.three)).2 = Demo.logged_in Demo.three ∧
  ∀ pageParam limitParam,
    (admin_links_open pageParam limitParam (Demo.logged_in Demo.three)).2 =
    Demo.logged_in Demo.three.
Proof.
  apply (reading_endpoints_change_nothing Demo.URL_parses None None ""
           (mkEvent (GetAdminLinks (Some ("Bearer " +:+ Demo.token)) (Some "1") (Some "2") (Some "a"))
              Demo.rand_zero "")
           (Demo.logged_in Demo.three)).
  exact I.
Defined.

(** ** Paging through the admin list *)

Lemma take_add_drop {A} (l : list A) (a b : nat) :
  take (a + b) l = take a l ++ take b (drop a l).
Proof.
  revert l. induction a as [|a IH]; intros l; [done|].
  destruct l as [|x l]; simpl; [by destruct b | by rewrite IH].
Qed.

Lemma chunks_take {A} (l : list A) (n k : nat) :
  concat ((λ i, take n (drop (i * n) l)) <$> seq 0 k) = take (k * n) l.
Proof.
  induction k as [|k IH]; [done|].
  rewrite seq_S, fmap_app, concat_app, IH. simpl.
  rewrite app_nil_r, <- take_add_drop. f_equal. lia.
Qed.

Lemma page_rows_chunk (L : Z) (i : nat) (rows : list Row) :
  1 ≤ L →
  page_rows L (Z.of_nat (S i)) rows = take (Z.to_nat L) (drop (i * Z.to_nat L) rows).
Proof.
  intros HL. unfold page_rows. do 2 f_equal.
  rewrite Nat2Z.inj_succ. replace (Z.succ (Z.of_nat i) - 1) with (Z.of_nat i) by lia.
  rewrite Z2Nat.inj_mul by lia. by rewrite Nat2Z.id.
Qed.

(** The pages [1 .. ceil(T / L)] of [L] rows split a list of [T] rows:
    taken in turn they give back the list, every page before the last is
    full, the last is not empty, and every later page is empty. *)
Lemma pages_split (L : Z) (rows : list Row) :
  1 ≤ L →
  let pages := JS.Math_ceil (inject_Z (Z.of_nat (length rows)) / inject_Z L) in
  0 ≤ pages ∧
  concat ((λ i, page_rows L (Z.of_nat (S i)) rows) <$> seq 0 (Z.to_nat pages)) = rows ∧
  (∀ p, 1 ≤ p < pages → Z.of_nat (length (page_rows L p rows)) = L) ∧
  (1 ≤ pages → 1 ≤ Z.of_nat (length (page_rows L pages rows))) ∧
  (∀ p, pages < p → page_rows L p rows = []).
Proof.
  intros HL pages.
  pose proof (Math_ceil_quotient (Z.of_nat (length rows)) L HL) as [Hlow Hup].
  fold pages in Hlow, Hup.
  assert (Hpos : 0 ≤ pages) by nia.
  split; [done|]. split; [|split; [|split]].
  - erewrite list_fmap_ext; [|intros i x _; by apply page_rows_chunk].
    rewrite chunks_take. apply take_ge.
    apply Nat2Z.inj_le. rewrite Nat2Z.inj_mul, !Z2Nat.id by lia. done.
  - intros p Hp. unfold page_rows.
    rewrite length_take, length_drop. nia.
  - intros Hp. unfold page_rows.
    rewrite length_take, length_drop. nia.
  - intros p Hp. unfold page_rows.
    rewrite drop_ge; [by destruct (Z.to_nat L)|]. nia.
Qed.

(** X12: the pages of the admin list cover the list.  With a valid token,
    [limit = L >= 1], a table whose counters fit and page numbers in range,
    asking for the pages 1, 2, ..., [totalPages] in turn returns every
    record the search leaves exactly once, latest first; and a page beyond
    [totalPages] whose offset is in range is answered 200 with no record. *)
Theorem admin_links_pages_cover (h limitParam searchParam : option string)
    (s : Server) (L : Z) (params : list (option string)) :
  validateToken (validTokens s) h = true →
  JS.parseInt (JS.or_else limitParam "50") = Some L →
  1 ≤ L → clicks_fit (db s) →
  let rows := searched searchParam (db s) in
  let pages := JS.Math_ceil (inject_Z (Z.of_nat (length rows)) / inject_Z L) in
  safe_integer (pages * L) →
  Forall2 (λ q i, JS.parseInt (JS.or_else q "1") = Some (Z.of_nat (S i)))
    params (seq 0 (Z.to_nat pages)) →
  ∃ sorted,
    sorted ≡ₚ rows ∧
    StronglySorted (λ a b, (created_at b ≤ created_at a)%string) sorted ∧
    concat ((λ q, links_of (admin_links h q limitParam searchParam s).1) <$> params)
      = select_columns <$> sorted ∧
    (∀ q p, JS.parseInt (JS.or_else q "1") = Some p → pages < p →
       safe_integer (p * L) →
       status (admin_links h q limitParam searchParam s).1 = 200 ∧
       links_of (admin_links h q limitParam searchParam s).1 = []).
Proof.
  intros Htok HL HL1 Hfit rows pages Hsafe Hparams.
  assert (Hlen : length (Sql.order_by_created_desc rows) = length rows).
  { by rewrite order_by_created_desc_perm. }
  pose proof (pages_split L (Sql.order_by_created_desc rows) HL1) as Hsplit.
  cbv zeta in Hsplit. rewrite Hlen in Hsplit. fold pages in Hsplit.
  destruct Hsplit as (Hpos & Hcover & _ & _ & Hlate).
  unfold safe_integer in Hsafe.
  exists (Sql.order_by_created_desc rows).
  split; [apply order_by_created_desc_perm|].
  split; [apply order_by_created_desc_sorted|]. split.
  - transitivity (select_columns <$>
      concat ((λ i, page_rows L (Z.of_nat (S i)) (Sql.order_by_created_desc rows))
                <$> seq 0 (Z.to_nat pages))); [|by rewrite Hcover].
    assert (Hin : ∀ i, i ∈ seq 0 (Z.to_nat pages) → safe_paging (Z.of_nat (S i)) L).
    { intros i Hi. apply elem_of_seq in Hi. unfold safe_paging, safe_integer. nia. }
    clear Hcover Hlate. revert Hin.
    induction Hparams as [|q i params idx Hq Hparams IH]; intros Hin; [done|].
    cbn [fmap list_fmap concat]. rewrite fmap_app. f_equal.
    + rewrite (admin_links_page h q limitParam searchParam s (Z.of_nat (S i)) L); try done.
      apply Hin. apply list_elem_of_here.
    + apply IH. intros j Hj. apply Hin. by apply list_elem_of_further.
  - intros q p Hq Hp Hps. unfold safe_integer in Hps.
    rewrite (admin_links_page h q limitParam searchParam s p L); try done.
    + cbn [fst status json links_of body]. split; [done|].
      fold rows. by rewrite (Hlate p Hp).
    + unfold safe_paging, safe_integer. nia.
Qed.

Lemma admin_links_pages_cover_witness :
  let h := Some ("Bearer " +:+ Demo.token) in
  let s := Demo.logged_in Demo.three in
  let pages := JS.Math_ceil (inject_Z (Z.of_nat (length (searched None (db s)))) / inject_Z 2) in
  ∃ sorted,
    sorted ≡ₚ searched None (db s) ∧
    StronglySorted (λ a b, (created_at b ≤ created_at a)%string) sorted ∧
    concat ((λ q, links_of (admin_links h q (Some "2") None s).1) <$> [Some "1"; Some "2"])
      = select_columns <$> sorted ∧
    (∀ q p, JS.parseInt (JS.or_else q "1") = Some p → pages < p →
       safe_integer (p * 2) →
       status (admin_links h q (Some "2") None s).1 = 200 ∧
       links_of (admin_links h q (Some "2") None s).1 = []).
Proof.
  apply (admin_links_pages_cover (Some ("Bearer " +:+ Demo.token)) (Some "2") None
           (Demo.logged_in Demo.three) 2 [Some "1"; Some "2"]).
  - reflexivity.
  - reflexivity.
  - lia.
  - apply clicks_fit_three.
  - unfold safe_integer. vm_compute. split; discriminate.
  - repeat constructor.
Defined.

Lemma admin_links_open_pagination_witness :
  ∃ sorted pages,
    let links := take (Z.to_nat 2) (drop (Z.to_nat ((2 - 1) * 2)) sorted) in
    admin_links_open (Some "2") (Some "2") (start Demo.three) =
      (mkResponse 200 (LinkList (select_columns <$> links) (mkPagination 2 2 3 pages)),
       start Demo.three) ∧
    sorted ≡ₚ Demo.three ∧
    StronglySorted (λ a b, (created_at b ≤ created_at a)%string) sorted ∧
    (pages - 1) * 2 < 3 ≤ pages * 2 ∧
    Z.of_nat (length links) ≤ 2.
Proof.
  apply (admin_links_open_pagination (Some "2") (Some "2") (start Demo.three) 2 2).
  - reflexivity.
  - reflexivity.
  - apply safe_paging_2_2.
Defined.

(** ** Searching the admin list *)

Lemma like_percent_unfold (p s : string) :
  Sql.like (String "%" p) s =
  Sql.like p s || match s with
                  | String _ s' => Sql.like (String "%" p) s'
                  | EmptyString => false
                  end.
Proof. by destruct s. Qed.

Lemma like_percent (p s : string) :
  Sql.like (String "%" p) s = true ↔
  ∃ pre post, s = pre +:+ post ∧ Sql.like p post = true.
Proof.
  induction s as [|c s IH]; rewrite like_percent_unfold.
  - rewrite orb_false_r. split.
    + intros H. by exists "", "".
    + intros (pre & post & Heq & H). destruct pre; [|done].
      change ("" +:+ post) with post in Heq. by subst.
  - rewrite orb_true_iff, IH. split.
    + intros [H|(pre & post & -> & H)].
      * by exists "", (String c s).
      * by exists (String c pre), post.
    + intros (pre & post & Heq & H). destruct pre as [|d pre].
      * change ("" +:+ post) with post in Heq. left. by subst.
      * change (String d pre +:+ post) with (String d (pre +:+ post)) in Heq.
        injection Heq as -> ->. right. by exists pre, post.
Qed.

Lemma string_app_nil_r (s : string) : s +:+ "" = s.
Proof.
  induction s as [|c s IH]; [done|].
  change (String c s +:+ "") with (String c (s +:+ "")). by f_equal.
Qed.










(** The wildcards of LIKE are not escaped in the search text: [%] alone
    selects every row. *)
Example search_percent_selects_all (links : list Row) : searched (Some "%") links = links.
Proof.
  unfold searched. cbn [JS.truthy]. induction links as [|r links IH]; [done|].
  rewrite filter_cons_True; [by rewrite IH|].
  unfold Sql.matches. apply orb_true_iff. left.
  change ("%" +:+ "%" +:+ "%") with (String "%" "%%").
  apply like_percent. exists (short_code r), "".
  split; [by rewrite string_app_nil_r | reflexivity].
Qed.

(** [_] stands for one character, also one of two bytes (U+0142), and not
    for one byte of it. *)
Example like_underscore_character :
  let l := String (Ascii.ascii_of_N 197) (String (Ascii.ascii_of_N 130) "") in
  Sql.like "z_oty" ("z" +:+ l +:+ "oty") = true ∧
  Sql.like "z__oty" ("z" +:+ l +:+ "oty") = false.
Proof. cbv zeta. split; reflexivity. Qed.

(** ** Click totals *)

Lemma increment_not_stored (links : list Row) (c : string) :
  ¬ stored links c → Sql.increment_clicks links c = links.
Proof.
  unfold stored, Sql.increment_clicks. induction links as [|r links IH]; intros Hno; [done|].
  cbn [fmap list_fmap] in *. rewrite elem_of_cons in Hno.
  unfold Sql.code_is at 1. destruct (String.eqb_spec (short_code r) c) as [E|E].
  - exfalso. apply Hno. by left.
  - f_equal. apply IH. intros H. apply Hno. by right.
Qed.

Lemma sum_increment (links : list Row) (c : string) :
  NoDup (short_code <$> links) → stored links c →
  Forall (λ r, clicks r < 2 ^ 63 - 1) links →
  foldr Z.add 0 (clicks <$> Sql.increment_clicks links c) =
  foldr Z.add 0 (clicks <$> links) + 1.
Proof.
  unfold stored. induction links as [|r links IH]; intros Hnd Hst Hfit.
  - by apply elem_of_nil in Hst.
  - cbn [fmap list_fmap] in Hnd, Hst. apply NoDup_cons in Hnd as [Hr Hnd].
    apply Forall_cons in Hfit as [Hfr Hfit].
    unfold Sql.increment_clicks. cbn [fmap list_fmap foldr].
    fold (Sql.increment_clicks links c).
    unfold Sql.code_is at 1. destruct (String.eqb_spec (short_code r) c) as [E|E].
    + subst c. rewrite (increment_not_stored links (short_code r) Hr).
      cbn [clicks set_clicks]. rewrite (add1_integer _ Hfr). lia.
    + apply elem_of_cons in Hst as [Hst|Hst]; [by symmetry in Hst|].
      rewrite (IH Hnd Hst Hfit). lia.
Qed.

Lemma increment_clicks_positive (links : list Row) (c : string) :
  Forall (λ r, 0 ≤ clicks r) links →
  Forall (λ r, 0 ≤ clicks r) (Sql.increment_clicks links c).
Proof.
  unfold Sql.increment_clicks. induction 1 as [|r links Hr Hpos IH]; [constructor|].
  cbn [fmap list_fmap]. constructor; [|exact IH].
  destruct (Sql.code_is c r); [|done].
  cbn [clicks set_clicks]. pose proof (add1_bounds (clicks r)). lia.
Qed.

(** In a table that fits, every counter is at most the sum of all. *)
Lemma clicks_fit_each (links : list Row) :
  Forall (λ r, 0 ≤ clicks r) links →
  0 ≤ foldr Z.add 0 (clicks <$> links) ∧
  Forall (λ r, clicks r ≤ foldr Z.add 0 (clicks <$> links)) links.
Proof.
  induction 1 as [|r links Hr Hpos [IH0 IH]]; [split; [done|constructor]|].
  cbn [fmap list_fmap foldr]. split; [lia|]. constructor; [lia|].
  eapply Forall_impl; [exact IH|]. cbv beta. intros x Hx. lia.
Qed.

(** X14: the click total of the admin list.  With a valid token, paging
    numbers in range and a table whose counters are not negative and sum to
    at most 2^53 - 2, [totalClicks] is the sum of the clicks of all rows of
    the table, whatever the search text is; with distinct codes, one
    redirect request for a stored code raises it by exactly 1. *)
Theorem total_clicks_counts_redirects
    (h pageParam limitParam searchParam : option string) (s : Server) (p L : Z) (c : string) :
  validateToken (validTokens s) h = true →
  JS.parseInt (JS.or_else pageParam "1") = Some p →
  JS.parseInt (JS.or_else limitParam "50") = Some L →
  safe_paging p L →
  Forall (λ r, 0 ≤ clicks r) (db s) →
  foldr Z.add 0 (clicks <$> db s) + 1 ≤ 2 ^ 53 - 1 →
  NoDup (short_code <$> db s) →
  c ≠ "" → stored (db s) c →
  let list_at (t : Server) := (admin_links h pageParam limitParam searchParam t).1 in
  status (list_at s) = 200 ∧
  total_clicks_of (list_at s) = foldr Z.add 0 (clicks <$> db s) ∧
  status (list_at (get_code c s).2) = 200 ∧
  total_clicks_of (list_at (get_code c s).2) = total_clicks_of (list_at s) + 1.
Proof.
  intros Htok Hp HL Hsafe Hpos Hsum Hnd Hne Hst list_at. subst list_at. cbv beta.
  destruct (Sql.select_by_code (db s) c) as [l|] eqn:Hsel;
    [|apply select_by_code_None in Hsel; contradiction].
  rewrite (get_code_stored c l s Hne Hsel). cbn [snd].
  destruct (clicks_fit_each (db s) Hpos) as [Hsum0 Heach].
  assert (Hinc : foldr Z.add 0 (clicks <$> Sql.increment_clicks (db s) c) =
                 foldr Z.add 0 (clicks <$> db s) + 1).
  { apply sum_increment; [done..|].
    eapply Forall_impl; [exact Heach|]. cbv beta. intros x Hx. lia. }
  assert (Hfit : clicks_fit (db s)).
  { split; [done|]. unfold safe_integer. lia. }
  assert (Hfit' : clicks_fit (Sql.increment_clicks (db s) c)).
  { split; [by apply increment_clicks_positive|].
    unfold safe_integer. rewrite Hinc. lia. }
  rewrite !(admin_links_page h pageParam limitParam searchParam _ p L) by done.
  cbn [fst total_clicks_of body status json totalClicks db set_db]. by rewrite Hinc.
Qed.

Lemma total_clicks_counts_redirects_witness :
  let h := Some ("Bearer " +:+ Demo.token) in
  let s := Demo.logged_in Demo.three in
  let list_at (t : Server) := (admin_links h None None (Some "abc") t).1 in
  status (list_at s) = 200 ∧
  total_clicks_of (list_at s) = foldr Z.add 0 (clicks <$> db s) ∧
  status (list_at (get_code "promo" s).2) = 200 ∧
  total_clicks_of (list_at (get_code "promo" s).2) = total_clicks_of (list_at s) + 1.
Proof.
  apply (total_clicks_counts_redirects (Some ("Bearer " +:+ Demo.token)) None None
           (Some "abc") (Demo.logged_in Demo.three) 1 50 "promo").
  - reflexivity.
  - reflexivity.
  - reflexivity.
  - unfold safe_paging, safe_integer. lia.
  - repeat constructor; cbn; lia.
  - cbn. lia.
  - apply (bool_decide_unpack _). vm_compute. exact I.
  - discriminate.
  - apply found_stored. reflexivity.
Defined.

(** ** Whole runs *)

Lemma table_le_select (links links' : list Row) (c : string) (l : Row) :
  table_le links links' →
  Sql.select_by_code links c = Some l →
  ∃ l', Sql.select_by_code links' c = Some l' ∧ row_le l l'.
Proof.
  intros (kept & new & -> & Hkept) Hsel. rewrite select_app.
  cut (∃ l', Sql.select_by_code kept c = Some l' ∧ row_le l l').
  { intros (l' & -> & Hle). by exists l'. }
  unfold Sql.select_by_code in *. induction Hkept as [|r r' links kept Hr Hkept IH]; [done|].
  cbn [List.find] in *. unfold Sql.code_is in *.
  destruct Hr as (Hid & Hcode & Hrest). rewrite Hcode.
  destruct (String.eqb (short_code r) c).
  - injection Hsel as <-. exists r'. split; [done|]. by split.
  - by apply IH.
Qed.

Lemma run_table_le URL_parses env_ADMIN_PASSWORD env_BASE_URL admin_html
    (es : list Event) (s : Server) :
  table_le (db s) (db (run URL_parses env_ADMIN_PASSWORD env_BASE_URL admin_html es s).2).
Proof.
  revert s. induction es as [|e es IH]; intros s; cbn [run]; [auto with links|].
  pose proof (handle_table_step URL_parses env_ADMIN_PASSWORD env_BASE_URL admin_html e s)
    as Hstep.
  destruct (handle _ _ _ _ e s) as [r s1]. specialize (IH s1).
  destruct (run _ _ _ _ es s1) as [rs s2]. cbn [snd] in *.
  eapply table_le_trans; [|exact IH].
  destruct Hstep; auto with links.
Qed.

(** X15: a link keeps working.  Whatever requests the service serves, a
    code that was stored stays stored with the same identifier, URL and
    creation time and with no fewer clicks, and a redirect request for it
    still answers 302 with the same [Location] when the URL is a header
    text: the URL as stored, or its percent-encoding when the URL has a
    character above U+00FF. *)
Theorem stored_links_keep_resolving URL_parses env_ADMIN_PASSWORD env_BASE_URL admin_html
    (es : list Event) (s : Server) (c : string) (l : Row) :
  c ≠ "" →
  Sql.select_by_code (db s) c = Some l →
  header_text (original_url l) →
  let s' := (run URL_parses env_ADMIN_PASSWORD env_BASE_URL admin_html es s).2 in
  (∃ l', Sql.select_by_code (db s') c = Some l' ∧ row_le l l') ∧
  (get_code c s').1 =
    mkResponse 302 (Redirect (if JS.beyond_latin1 (original_url l)
                              then JS.encodeURI (original_url l)
                              else original_url l)).
Proof.
  intros Hne Hsel Htext s'.
  destruct (table_le_select (db s) (db s') c l) as (l' & Hsel' & Hle); [|done|].
  { apply run_table_le. }
  split; [by exists l'|].
  rewrite (get_code_stored c l' s' Hne Hsel'). cbn [fst].
  destruct Hle as (_ & _ & Hurl & _). rewrite Hurl. by apply redirect_302.
Qed.

Lemma stored_links_keep_resolving_witness :
  let s' := (run Demo.URL_parses None None ""
               [Demo.login;
                mkEvent (PostShorten (Some {| url := Some "https://example.com" |}))
                  DemoMore.rand_abc "2024-01-05 08:00:00";
                mkEvent (GetCode "promo") Demo.rand_zero ""]
               (start Demo.three)).2 in
  (∃ l', Sql.select_by_code (db s') "promo" = Some l' ∧
         row_le (Demo.row 1 "promo" "https://example.com/a" "2024-01-01 10:00:00" 4) l') ∧
  (get_code "promo" s').1 =
    mkResponse 302 (Redirect (if JS.beyond_latin1 "https://example.com/a"
                              then JS.encodeURI "https://example.com/a"
                              else "https://example.com/a")).
Proof.
  apply (stored_links_keep_resolving Demo.URL_parses None None ""
           [Demo.login;
            mkEvent (PostShorten (Some {| url := Some "https://example.com" |}))
              DemoMore.rand_abc "2024-01-05 08:00:00";
            mkEvent (GetCode "promo") Demo.rand_zero ""]
           (start Demo.three) "promo"
           (Demo.row 1 "promo" "https://example.com/a" "2024-01-01 10:00:00" 4)).
  - discriminate.
  - reflexivity.
  - closed_header_text.
Defined.

(** X16: a token stays valid.  Whatever requests the service serves, a
    header that [validateToken] accepted is accepted afterwards, and no
    request other than a successful login adds a token. *)
Theorem tokens_stay_valid URL_parses env_ADMIN_PASSWORD env_BASE_URL admin_html
    (es : list Event) (s : Server) (h : option string) :
  validateToken (validTokens s) h = true →
  let out := run URL_parses env_ADMIN_PASSWORD env_BASE_URL admin_html es s in
  validateToken (validTokens out.2) h = true ∧
  validTokens out.2 = validTokens s ∪ issued es out.1.
Proof.
  intros Hh out. subst out.
  pose proof (run_tokens URL_parses env_ADMIN_PASSWORD env_BASE_URL admin_html es s) as Ht.
  cbv zeta in Ht. split; [|done]. rewrite Ht.
  apply validateToken_carries in Hh as (t & -> & Hin).
  apply validateToken_carries. exists t. split; [done|]. apply elem_of_union. by left.
Qed.

Lemma tokens_stay_valid_witness :
  let out := run Demo.URL_parses None None ""
               [Demo.login; mkEvent (GetCode "promo") Demo.rand_zero ""]
               (mkServer Demo.three {[ "tok" ]}) in
  validateToken (validTokens out.2) (Some "Bearer tok") = true ∧
  validTokens out.2 =
    validTokens (mkServer Demo.three {[ "tok" ]}) ∪
    issued [Demo.login; mkEvent (GetCode "promo") Demo.rand_zero ""] out.1.
Proof.
  apply (tokens_stay_valid Demo.URL_parses None None ""
           [Demo.login; mkEvent (GetCode "promo") Demo.rand_zero ""]
           (mkServer Demo.three {[ "tok" ]}) (Some "Bearer tok")).
  reflexivity.
Defined.

Lemma run_preserves_link_store_witness :
  let s' := (run Demo.URL_parses None None ""
               [mkEvent (PostShorten (Some {| url := Some "https://example.com" |}))
                  DemoMore.rand_abc "2024-01-05 08:00:00";
                mkEvent (GetCode "promo") Demo.rand_zero ""]
               (start Demo.three)).2 in
  NoDup (short_code <$> db s') ∧ table_le (db (start Demo.three)) (db s').
Proof.
  apply (run_preserves_link_store Demo.URL_parses None None ""
           [mkEvent (PostShorten (Some {| url := Some "https://example.com" |}))
              DemoMore.rand_abc "2024-01-05 08:00:00";
            mkEvent (GetCode "promo") Demo.rand_zero ""]
           (start Demo.three)).
  apply (bool_decide_unpack _). vm_compute. exact I.
Defined.

(** X18: what [/shorten] answers to a valid URL.  It answers 500, and
    stores nothing, exactly when the first nine candidates it draws are all
    stored already; otherwise it answers 200 with the first candidate that is
    not stored, and appends one row for it with the submitted URL, the
    current time and no clicks. *)
Theorem shorten_stores_first_fresh_candidate URL_parses env_BASE_URL
    (rand : nat → nat) (now u : string) (b : ShortenRequest) (s : Server) :
  JS.truthy (url b) = Some u → URL_parses u = true →
  let r := shorten URL_parses env_BASE_URL rand now (Some b) s in
  (status r.1 = 500 ↔ Forall (λ j, stored (db s) (candidate rand j)) (seq 0 9)) ∧
  (status r.1 = 500 → r.2 = s) ∧
  (status r.1 ≠ 500 →
   ∃ i, (i < 9)%nat ∧ ¬ stored (db s) (candidate rand i) ∧
     Forall (λ j, stored (db s) (candidate rand j)) (seq 0 i) ∧
     r = (json (Shortened (mkShortenResponse (candidate rand i)
                             (baseUrl env_BASE_URL +:+ "/" +:+ candidate rand i) u)),
          set_db s (db s ++ [mkRow (Sql.next_rowid (db s)) (candidate rand i) u now 0]))).
Proof.
  intros Hu Hvalid r. subst r.
  destruct (shorten_valid_url URL_parses env_BASE_URL rand now u b s Hu Hvalid)
    as (H500 & Hsame & Hok).
  split; [|split; [exact Hsame|]].
  - rewrite H500, Forall_forall. split.
    + intros H j Hj. apply elem_of_seq in Hj. apply H. lia.
    + intros H j Hj. apply H, elem_of_seq. lia.
  - intros Hne. destruct (Hok Hne) as (i & Hi & Hfresh & Hbefore & Heq).
    exists i. split; [done|]. split; [done|]. split; [|done].
    apply Forall_forall. intros j Hj. apply elem_of_seq in Hj. apply Hbefore. lia.
Qed.

Lemma shorten_stores_first_fresh_candidate_witness :
  let s := start Demo.three in
  let r := shorten Demo.URL_parses None Demo.rand_rows "2024-01-05 08:00:00"
             (Some {| url := Some "https://example.com" |}) s in
  (status r.1 = 500 ↔ Forall (λ j, stored (db s) (candidate Demo.rand_rows j)) (seq 0 9)) ∧
  (status r.1 = 500 → r.2 = s) ∧
  (status r.1 ≠ 500 →
   ∃ i, (i < 9)%nat ∧ ¬ stored (db s) (candidate Demo.rand_rows i) ∧
     Forall (λ j, stored (db s) (candidate Demo.rand_rows j)) (seq 0 i) ∧
     r = (json (Shortened (mkShortenResponse (candidate Demo.rand_rows i)
                             (baseUrl None +:+ "/" +:+ candidate Demo.rand_rows i)
                             "https://example.com")),
          set_db s (db s ++ [mkRow (Sql.next_rowid (db s)) (candidate Demo.rand_rows i)
                               "https://example.com" "2024-01-05 08:00:00" 0]))).
Proof.
  apply (shorten_stores_first_fresh_candidate Demo.URL_parses None Demo.rand_rows
           "2024-01-05 08:00:00" "https://example.com"
           {| url := Some "https://example.com" |} (start Demo.three)).
  - reflexivity.
  - reflexivity.
Defined.

Lemma admin_create_stored_slug_state_witness :
  (admin_create Demo.URL_parses None "2024-01-05 08:00:00" (Some ("Bearer " +:+ Demo.token))
     (Some {| cs_url := Some "not a url"; slug := Some "promo" |})
     (Demo.logged_in Demo.three)).2 = Demo.logged_in Demo.three.
Proof.
  apply (admin_create_stored_slug_state Demo.URL_parses None "2024-01-05 08:00:00" "promo").
  - reflexivity.
  - apply found_stored. reflexivity.
Defined.

(** X21: missing and empty paging parameters.  With a valid token and a
    table whose counters fit, a [page] or [limit] that is absent or empty is
    not rejected: the page is 1 and the limit 50, so the answer is 200 with
    the first 50 of the records the search leaves, latest first. *)
Theorem admin_links_defaults (h pageParam limitParam searchParam : option string)
    (s : Server) :
  validateToken (validTokens s) h = true →
  JS.truthy pageParam = None → JS.truthy limitParam = None →
  clicks_fit (db s) →
  let rows := searched searchParam (db s) in
  ∃ sorted pages stats,
    (admin_links h pageParam limitParam searchParam s).1 =
      mkResponse 200
        (LinkPage (select_columns <$> take 50 sorted)
           (mkPagination 1 50 (Z.of_nat (length rows)) pages) stats) ∧
    sorted ≡ₚ rows ∧
    StronglySorted (λ a b, (created_at b ≤ created_at a)%string) sorted.
Proof.
  intros Htok Hpage Hlimit Hfit rows.
  exists (Sql.order_by_created_desc rows). eexists _, _.
  assert (Hp : JS.parseInt (JS.or_else pageParam "1") = Some 1).
  { unfold JS.or_else. by rewrite Hpage. }
  assert (HL : JS.parseInt (JS.or_else limitParam "50") = Some 50).
  { unfold JS.or_else. by rewrite Hlimit. }
  assert (Hsafe : safe_paging 1 50).
  { unfold safe_paging, safe_integer. lia. }
  rewrite (admin_links_page h pageParam limitParam searchParam s 1 50) by done.
  cbn [fst]. split; [reflexivity|].
  split; [apply order_by_created_desc_perm | apply order_by_created_desc_sorted].
Qed.

Lemma admin_links_defaults_witness :
  let s := Demo.logged_in Demo.three in
  let rows := searched None (db s) in
  ∃ sorted pages stats,
    (admin_links (Some ("Bearer " +:+ Demo.token)) (Some "") None None s).1 =
      mkResponse 200
        (LinkPage (select_columns <$> take 50 sorted)
           (mkPagination 1 50 (Z.of_nat (length rows)) pages) stats) ∧
    sorted ≡ₚ rows ∧
    StronglySorted (λ a b, (created_at b ≤ created_at a)%string) sorted.
Proof.
  apply (admin_links_defaults (Some ("Bearer " +:+ Demo.token)) (Some "") None None
           (Demo.logged_in Demo.three)).
  - reflexivity.
  - reflexivity.
  - reflexivity.
  - apply clicks_fit_three.
Defined.
